(** * Keypoint head of the region-based detector (roi_heads/keypoint_head.py)

    A shallow embedding of the keypoint head: the attention gate and the
    conv / deconv / upsample network are followed at the level of tensor
    shapes, the training loss and the inference decode at the level of
    tensor values.  Scalars of tensors are real numbers; Python integers
    are [Z] (sizes and indices that are never negative are [nat]).  The
    loss is followed a second time with float32 tensors and IEEE 754
    arithmetic, for the value it returns on a batch it skips.
    Python exceptions are values of [exn]; a call either returns [Ok v]
    or raises, [Raise e]. *)

From Stdlib Require Import String ZArith List Bool Reals Lia Lra SpecFloat.
Import ListNotations.

Local Open Scope string_scope.
Local Open Scope Z_scope.

(** ** Exceptions and results *)

Inductive exn : Type :=
| AssertionError (msg : string)
| NameError (name : string)
| NotImplementedError
| IndexError
| ValueError
| RuntimeError.

Inductive result (A : Type) : Type :=
| Ok (a : A)
| Raise (e : exn).

Arguments Ok {A} a.
Arguments Raise {A} e.

Definition rbind {A B : Type} (r : result A) (k : A -> result B) : result B :=
  match r with
  | Ok a => k a
  | Raise e => Raise e
  end.

Declare Scope result_scope.
Delimit Scope result_scope with result.
Notation "x <- c ;; k" := (rbind c (fun x => k))
  (at level 61, c at next level, right associativity) : result_scope.

(** ** The module namespace

    Names bound at module level by the file itself: its imports (lines 2-10),
    its two module variables and its functions and classes.  A global name
    used inside a function body is looked up when the body runs; [extra]
    stands for names that other code has added to the module namespace by
    then (none, for the module as it is written). *)

Definition module_globals : list string :=
  [ "List"; "torch"; "nn"; "F";
    "Conv2d"; "ConvTranspose2d"; "ShapeSpec"; "cat"; "interpolate";
    "Instances"; "heatmaps_to_keypoints";
    "get_event_storage"; "Registry";
    "_TOTAL_SKIPPED"; "ROI_KEYPOINT_HEAD_REGISTRY";
    "build_keypoint_head"; "keypoint_rcnn_loss"; "keypoint_rcnn_inference";
    "_NewEmptyTensorOp"; "Max"; "SpatialAttention";
    "BaseKeypointRCNNHead"; "KRCNNConvDeconvUpsampleHead" ].

Definition bound (extra : list string) (name : string) : bool :=
  existsb (String.eqb name) (module_globals ++ extra).

Definition resolve (extra : list string) (name : string) : result unit :=
  if bound extra name then Ok tt else Raise (NameError name).

(** ** Configuration

    The six entries of the configuration node that the file reads, and
    [other_keys] for whatever else the node holds. *)

Record Cfg : Type := mkCfg {
  LOSS_WEIGHT : R;
  NORMALIZE_LOSS_BY_VISIBLE_KEYPOINTS : bool;
  NUM_KEYPOINTS : Z;
  BATCH_SIZE_PER_IMAGE : Z;
  POSITIVE_FRACTION : R;
  CONV_DIMS : list Z;
  other_keys : list (string * Z)
}.

Fixpoint cfg_get (keys : list (string * Z)) (key : string) : option Z :=
  match keys with
  | [] => None
  | (k, v) :: rest => if String.eqb k key then Some v else cfg_get rest key
  end.

Record ShapeSpec : Type := mkShapeSpec { channels : Z }.

(** ** Tensor shapes and the layers, at the level of shapes *)

Record Shape : Type := mkShape { dimN : Z; dimC : Z; dimH : Z; dimW : Z }.

Definition numel (x : Shape) : Z := dimN x * dimC x * dimH x * dimW x.

Record ConvSpec : Type := mkConvSpec {
  in_channels : Z;
  out_channels : Z;
  kernel_size : Z;
  stride : Z;
  padding : Z;
  bias : bool
}.

(** [Conv2d(in, out, k, stride=1, padding=0, bias=True)] and
    [ConvTranspose2d(in, out, k, stride=1, padding=0)]: the layer objects
    are their constructor arguments. *)
Definition Conv2d (cin cout k : Z) (s p : Z) (b : bool) : ConvSpec :=
  mkConvSpec cin cout k s p b.

Definition ConvTranspose2d (cin cout k : Z) (s p : Z) : ConvSpec :=
  mkConvSpec cin cout k s p true.

(** Modelled from the spec: the convolution, transposed convolution and
    bilinear interpolation primitives are external; their effect on the
    shape is the usual output-size arithmetic (dilation 1, no output
    padding), and a convolution refuses an input whose channel count is not
    its [in_channels]. *)
Definition conv_out (l : ConvSpec) (h : Z) : Z :=
  (h + 2 * padding l - (kernel_size l - 1) - 1) / stride l + 1.

Definition deconv_out (l : ConvSpec) (h : Z) : Z :=
  (h - 1) * stride l - 2 * padding l + (kernel_size l - 1) + 1.

Definition Conv2d_forward (l : ConvSpec) (x : Shape) : result Shape :=
  if dimC x =? in_channels l
  then Ok (mkShape (dimN x) (out_channels l) (conv_out l (dimH x)) (conv_out l (dimW x)))
  else Raise RuntimeError.

Definition ConvTranspose2d_forward (l : ConvSpec) (x : Shape) : result Shape :=
  if dimC x =? in_channels l
  then Ok (mkShape (dimN x) (out_channels l) (deconv_out l (dimH x)) (deconv_out l (dimW x)))
  else Raise RuntimeError.

Definition interpolate (x : Shape) (scale_factor : Z) : Shape :=
  mkShape (dimN x) (dimC x) (dimH x * scale_factor) (dimW x * scale_factor).

Definition relu (x : Shape) : Shape := x.
Definition sigmoid (x : Shape) : Shape := x.

(** [torch.mean(x, dim=1, keepdim=True)]. *)
Definition torch_mean_dim1 (x : Shape) : Shape :=
  mkShape (dimN x) 1 (dimH x) (dimW x).

(** Modelled from the spec: [torch.max(x, dim=1, keepdim=True)[0]];
    reducing over zero elements is undefined in the numeric backend. *)
Definition torch_max_dim1 (x : Shape) : result Shape :=
  if numel x =? 0 then Raise RuntimeError
  else Ok (mkShape (dimN x) 1 (dimH x) (dimW x)).

(** [torch.cat([a, b], dim=1)]: the other dimensions have to agree. *)
Definition torch_cat_dim1 (a b : Shape) : result Shape :=
  if (dimN a =? dimN b) && (dimH a =? dimH b) && (dimW a =? dimW b)
  then Ok (mkShape (dimN a) (dimC a + dimC b) (dimH a) (dimW a))
  else Raise RuntimeError.

(** Broadcasting of one dimension, and [a * b] on four-dimensional tensors. *)
Definition broadcast_dim (a b : Z) : result Z :=
  if a =? b then Ok a
  else if a =? 1 then Ok b
  else if b =? 1 then Ok a
  else Raise RuntimeError.

Definition mul_broadcast (a b : Shape) : result Shape :=
  (n <- broadcast_dim (dimN a) (dimN b) ;;
   c <- broadcast_dim (dimC a) (dimC b) ;;
   h <- broadcast_dim (dimH a) (dimH b) ;;
   w <- broadcast_dim (dimW a) (dimW b) ;;
   Ok (mkShape n c h w))%result.

(** [_NewEmptyTensorOp.apply(x, new_shape)]: [x.new_empty(new_shape)]. *)
Definition NewEmptyTensorOp_apply (x : Shape) (new_shape : Z * Z * Z * Z) : Shape :=
  let '(n, c, h, w) := new_shape in mkShape n c h w.

(** [Max] (lines 130-138). *)
Definition Max (x : Shape) : result Shape :=
  if numel x =? 0 then
    let output_shape := (dimN x, 1, dimH x, dimW x) in
    let empty := NewEmptyTensorOp_apply x output_shape in
    Ok empty
  else torch_max_dim1 x.

(** ** SpatialAttention (lines 140-154) *)

Record SpatialAttention : Type := mkSpatialAttention { conv : ConvSpec }.

Definition SpatialAttention_init (extra : list string) (kernel_size : Z)
  : result SpatialAttention :=
  (_ <- resolve extra "SpatialAttention" ;;
   if negb ((kernel_size =? 3) || (kernel_size =? 7))
   then Raise (AssertionError "kernel size must be 3 or 7")
   else
     let padding := if kernel_size =? 7 then 3 else 1 in
     _ <- resolve extra "Conv2d" ;;
     let conv := Conv2d 2 1 kernel_size 1 padding false in
     _ <- resolve extra "weight_init" ;;
     _ <- resolve extra "nn" ;;
     Ok (mkSpatialAttention conv))%result.

(** The default of the [kernel_size] argument. *)
Definition SpatialAttention_default_kernel_size : Z := 3.

Definition SpatialAttention_forward (self : SpatialAttention) (x : Shape)
  : result Shape :=
  (let avg_out := torch_mean_dim1 x in
   max_out <- Max x ;;
   scale <- torch_cat_dim1 avg_out max_out ;;
   scale <- Conv2d_forward (conv self) scale ;;
   mul_broadcast x (sigmoid scale))%result.

(** ** BaseKeypointRCNNHead.__init__ (lines 161-172) *)

Record BaseKeypointRCNNHead : Type := mkBaseKeypointRCNNHead {
  loss_weight : R;
  normalize_by_visible_keypoints : bool;
  num_keypoints : Z;
  normalizer_per_img : R;
  training : bool
}.

Definition BaseKeypointRCNNHead_init (cfg : Cfg) (input_shape : ShapeSpec)
  : BaseKeypointRCNNHead :=
  let loss_weight := LOSS_WEIGHT cfg in
  let normalize_by_visible_keypoints := NORMALIZE_LOSS_BY_VISIBLE_KEYPOINTS cfg in
  let num_keypoints := NUM_KEYPOINTS cfg in
  let batch_size_per_image := BATCH_SIZE_PER_IMAGE cfg in
  let positive_sample_fraction := POSITIVE_FRACTION cfg in
  let normalizer_per_img :=
    (IZR (num_keypoints * batch_size_per_image) * positive_sample_fraction)%R in
  mkBaseKeypointRCNNHead loss_weight normalize_by_visible_keypoints num_keypoints
    normalizer_per_img true.

(** [module.train(mode)] / [module.eval()]. *)
Definition set_training (mode : bool) (self : BaseKeypointRCNNHead)
  : BaseKeypointRCNNHead :=
  mkBaseKeypointRCNNHead (loss_weight self) (normalize_by_visible_keypoints self)
    (num_keypoints self) (normalizer_per_img self) mode.

(** ** KRCNNConvDeconvUpsampleHead (lines 212-264) *)

Record KRCNNConvDeconvUpsampleHead : Type := mkKRCNNConvDeconvUpsampleHead {
  base : BaseKeypointRCNNHead;
  blocks : list ConvSpec;
  spatialAtt : SpatialAttention;
  score_lowres : ConvSpec;
  up_scale : Z
}.

(** The loop of lines 236-241: the blocks, and [in_channels] after it. *)
Fixpoint conv_fcn (in_channels : Z) (conv_dims : list Z) : list ConvSpec * Z :=
  match conv_dims with
  | [] => ([], in_channels)
  | layer_channels :: rest =>
      let module := Conv2d in_channels layer_channels 3 1 1 true in
      let '(blocks, in_channels) := conv_fcn layer_channels rest in
      (module :: blocks, in_channels)
  end.

(** The loop of lines 250-256 sets the values of the parameters and leaves
    the layers as they are; it has no counterpart here. *)
Definition KRCNNConvDeconvUpsampleHead_init
  (extra : list string) (cfg : Cfg) (input_shape : ShapeSpec)
  : result KRCNNConvDeconvUpsampleHead :=
  (let base := BaseKeypointRCNNHead_init cfg input_shape in
   let up_scale := 2 in
   let conv_dims := CONV_DIMS cfg in
   let num_keypoints := NUM_KEYPOINTS cfg in
   let in_channels := channels input_shape in
   let '(blocks, in_channels) := conv_fcn in_channels conv_dims in
   spatialAtt <- SpatialAttention_init extra SpatialAttention_default_kernel_size ;;
   let deconv_kernel := 4 in
   let score_lowres :=
     ConvTranspose2d in_channels num_keypoints deconv_kernel 2 (deconv_kernel / 2 - 1) in
   Ok (mkKRCNNConvDeconvUpsampleHead base blocks spatialAtt score_lowres up_scale))%result.

Fixpoint apply_blocks (blocks : list ConvSpec) (x : Shape) : result Shape :=
  match blocks with
  | [] => Ok x
  | layer :: rest =>
      (y <- Conv2d_forward layer x ;; apply_blocks rest (relu y))%result
  end.

Definition KRCNNConvDeconvUpsampleHead_layers
  (self : KRCNNConvDeconvUpsampleHead) (x : Shape) : result Shape :=
  (x <- SpatialAttention_forward (spatialAtt self) x ;;
   x <- apply_blocks (blocks self) x ;;
   x <- ConvTranspose2d_forward (score_lowres self) x ;;
   Ok (interpolate x (up_scale self)))%result.

(** ** Tensors with their values, instance collections and the world *)

(** A tensor of shape (N, K, H, W) with its elements in row-major order. *)
Record Tensor : Type := mkTensor {
  tN : nat; tK : nat; tH : nat; tW : nat;
  tdata : list R
}.

(** A two-dimensional view of the same elements. *)
Record Tensor2 : Type := mkTensor2 { rows2 : nat; cols2 : nat; data2 : list R }.

Definition Keypoints : Type := list (list (R * R * R)).
Definition Boxes : Type := list (R * R * R * R).

(** An [Instances] collection: its length and the fields this file touches.
    [pred_keypoints] is absent until the inference stage attaches it. *)
Record Instances : Type := mkInstances {
  Instances_len : nat;
  gt_keypoints : Keypoints;
  proposal_boxes : Boxes;
  pred_boxes : Boxes;
  pred_keypoints : option (list (list (R * R * R)))
}.

Definition loc : Type := nat.

(** What a call can read and change: the module variable [_TOTAL_SKIPPED],
    the scalars put into the event storage (most recent first), and the
    tensors and instance collections of the caller, held by reference. *)
Record World : Type := mkWorld {
  _TOTAL_SKIPPED : Z;
  event_storage : list (string * Z);
  tensors : loc -> Tensor;
  objects : loc -> Instances
}.

(** The module as loaded: line 12. *)
Definition initial_world (ts : loc -> Tensor) (os : loc -> Instances) : World :=
  mkWorld 0 [] ts os.

Definition M (A : Type) : Type := World -> result A * World.

Definition ret {A : Type} (a : A) : M A := fun w => (Ok a, w).

Definition bind {A B : Type} (m : M A) (k : A -> M B) : M B :=
  fun w => match m w with
           | (Ok a, w') => k a w'
           | (Raise e, w') => (Raise e, w')
           end.

Definition lift {A : Type} (r : result A) : M A := fun w => (r, w).

Declare Scope monad_scope.
Delimit Scope monad_scope with monad.
Notation "x <- c ;; k" := (bind c (fun x => k))
  (at level 61, c at next level, right associativity) : monad_scope.

Definition read_tensor (l : loc) : M Tensor := fun w => (Ok (tensors w l), w).
Definition read_instances (l : loc) : M Instances := fun w => (Ok (objects w l), w).

Definition incr_TOTAL_SKIPPED : M unit :=
  fun w => (Ok tt, mkWorld (_TOTAL_SKIPPED w + 1) (event_storage w) (tensors w) (objects w)).

Definition get_TOTAL_SKIPPED : M Z := fun w => (Ok (_TOTAL_SKIPPED w), w).

(** [get_event_storage().put_scalar(name, value, smoothing_hint=False)]. *)
Definition put_scalar (name : string) (value : Z) : M unit :=
  fun w => (Ok tt, mkWorld (_TOTAL_SKIPPED w) ((name, value) :: event_storage w)
                           (tensors w) (objects w)).

Definition update {A : Type} (f : loc -> A) (l : loc) (a : A) : loc -> A :=
  fun l' => if Nat.eqb l' l then a else f l'.

(** [instances.pred_keypoints = value]. *)
Definition set_pred_keypoints (l : loc) (value : list (list (R * R * R))) : M unit :=
  fun w =>
    let i := objects w l in
    let i' := mkInstances (Instances_len i) (gt_keypoints i) (proposal_boxes i)
                          (pred_boxes i) (Some value) in
    (Ok tt, mkWorld (_TOTAL_SKIPPED w) (event_storage w) (tensors w)
                    (update (objects w) l i')).

(** ** Operations on values *)

Definition Rsum (l : list R) : R := fold_right Rplus 0%R l.

(** [x.sum()], read in real numbers; what it is in float32 arithmetic,
    where a sum can overflow, is [sum32] below. *)
Definition tensor_sum (x : Tensor) : R := Rsum (tdata x).

(** [cat(tensors, dim=0)] on flat sequences.
    Modelled from the spec: concatenation, in the order of the list. *)
Definition cat {A : Type} (tensors : list (list A)) : list A := concat tensors.

(** [torch.nonzero(flags).squeeze(1)]: the positions of the flags that are set. *)
Fixpoint nonzero_from (i : nat) (flags : list bool) : list nat :=
  match flags with
  | [] => []
  | b :: rest =>
      if b then i :: nonzero_from (S i) rest else nonzero_from (S i) rest
  end.

Definition nonzero (flags : list bool) : list nat := nonzero_from 0 flags.

(** [x.view(r, c)]: the same elements under another shape. *)
Definition view2 (x : Tensor) (r c : nat) : Tensor2 := mkTensor2 r c (tdata x).

Definition row2 (m : Tensor2) (i : nat) : list R :=
  firstn (cols2 m) (skipn (i * cols2 m) (data2 m)).

(** [m[idx]] for a sequence of row indices, and [t[idx]] on a flat sequence. *)
Fixpoint index_rows (m : Tensor2) (idx : list nat) : result (list (list R)) :=
  match idx with
  | [] => Ok []
  | i :: rest =>
      if (i <? rows2 m)%nat
      then (rs <- index_rows m rest ;; Ok (row2 m i :: rs))%result
      else Raise IndexError
  end.

Fixpoint index_flat (t : list nat) (idx : list nat) : result (list nat) :=
  match idx with
  | [] => Ok []
  | i :: rest =>
      match nth_error t i with
      | Some v => (vs <- index_flat t rest ;; Ok (v :: vs))%result
      | None => Raise IndexError
      end
  end.

(** Modelled from the spec: [F.cross_entropy(input, target, reduction="sum")]
    is external; the cross entropy of one row of logits against a class
    index is the negated log-softmax of the row at that index, a class
    index outside the row is refused, and the rows are summed. *)
Definition cross_entropy_row (logits : list R) (target : nat) : result R :=
  match nth_error logits target with
  | Some xt => Ok (ln (Rsum (map exp logits)) - xt)%R
  | None => Raise IndexError
  end.

Fixpoint cross_entropy_sum (input : list (list R)) (target : list nat) : result R :=
  match input, target with
  | [], [] => Ok 0%R
  | r :: input', t :: target' =>
      (l <- cross_entropy_row r t ;;
       s <- cross_entropy_sum input' target' ;;
       Ok (l + s)%R)%result
  | _, _ => Raise ValueError
  end.

(** [t.split(sizes, dim=0)]: the sizes have to add up to the length. *)
Fixpoint chunks {A : Type} (l : list A) (sizes : list nat) : list (list A) :=
  match sizes with
  | [] => []
  | n :: rest => firstn n l :: chunks (skipn n l) rest
  end.

Definition split {A : Type} (l : list A) (sizes : list nat) : result (list (list A)) :=
  if (list_sum sizes =? length l)%nat then Ok (chunks l sizes) else Raise RuntimeError.

(** [keypoint_results[:, :, [0, 1, 3]]]. *)
Definition select_0_1_3 (keypoint_results : list (list (R * R * R * R)))
  : list (list (R * R * R)) :=
  map (map (fun p => let '(x, y, _, score) := p in (x, y, score))) keypoint_results.

(** What [forward] returns: a dict of losses, or the instances. *)
Inductive ForwardResult : Type :=
| LossDict (d : list (string * R))
| PredictedInstances (instances : list loc).

Section Stages.

(** The encoder [Keypoints.to_heatmap(boxes, side_len)], giving the
    (n, K) bin indices and the (n, K) validity flags of one image, and the
    decoder [heatmaps_to_keypoints(logits, boxes)], giving (R, K, 4)
    rows (x, y, logit, score).  Both are external. *)
Variable to_heatmap : Keypoints -> Boxes -> nat -> list (list nat) * list (list bool).
Variable heatmaps_to_keypoints : Tensor -> Boxes -> list (list (R * R * R * R)).

(** The loop of lines 50-58: the lists [heatmaps] and [valid]. *)
Fixpoint encode_images (objs : loc -> Instances) (keypoint_side_len : nat)
  (instances : list loc) : list (list nat) * list (list bool) :=
  match instances with
  | [] => ([], [])
  | l :: rest =>
      let instances_per_image := objs l in
      let '(heatmaps, valid) := encode_images objs keypoint_side_len rest in
      if (Instances_len instances_per_image =? 0)%nat then (heatmaps, valid)
      else
        let keypoints := gt_keypoints instances_per_image in
        let '(heatmaps_per_image, valid_per_image) :=
          to_heatmap keypoints (proposal_boxes instances_per_image) keypoint_side_len in
        (concat heatmaps_per_image :: heatmaps, concat valid_per_image :: valid)
  end.

(** Lines 74-79: the summed cross entropy over the rows in [valid]. *)
Definition keypoint_loss_sum (x : Tensor) (keypoint_targets : list nat)
  (valid : list nat) : result R :=
  (let '(N, K, H, W) := (tN x, tK x, tH x, tW x) in
   let pred_keypoint_logits := view2 x (N * K) (H * W) in
   rows <- index_rows pred_keypoint_logits valid ;;
   targets <- index_flat keypoint_targets valid ;;
   cross_entropy_sum rows targets)%result.

(** [keypoint_rcnn_loss] (lines 30-86). *)
Definition keypoint_rcnn_loss (pred_keypoint_logits : loc) (instances : list loc)
  (normalizer : option R) : M R :=
  (x <- read_tensor pred_keypoint_logits ;;
   let keypoint_side_len := tH x in
   fun w =>
     let '(heatmaps, valid) := encode_images (objects w) keypoint_side_len instances in
     let keypoint_targets := cat heatmaps in
     let valid := nonzero (cat valid) in
     if (length heatmaps =? 0)%nat || (length valid =? 0)%nat then
       (_ <- incr_TOTAL_SKIPPED ;;
        skipped <- get_TOTAL_SKIPPED ;;
        _ <- put_scalar "kpts_num_skipped_batches" skipped ;;
        ret (tensor_sum x * 0)%R) w
     else
       (keypoint_loss <- lift (keypoint_loss_sum x keypoint_targets valid) ;;
        let normalizer :=
          match normalizer with
          | None => INR (length valid)
          | Some n => n
          end in
        ret (keypoint_loss / normalizer)%R) w)%monad.

(** The loop of lines 113-115. *)
Fixpoint attach (keypoint_results : list (list (list (R * R * R))))
  (pred_instances : list loc) : M unit :=
  match keypoint_results, pred_instances with
  | keypoint_results_per_image :: results, instances_per_image :: rest =>
      (_ <- set_pred_keypoints instances_per_image keypoint_results_per_image ;;
       attach results rest)%monad
  | _, _ => ret tt
  end.

(** [keypoint_rcnn_inference] (lines 89-115). *)
Definition keypoint_rcnn_inference (pred_keypoint_logits : loc)
  (pred_instances : list loc) : M unit :=
  (x <- read_tensor pred_keypoint_logits ;;
   fun w =>
     let bboxes_flat := cat (map (fun b => pred_boxes (objects w b)) pred_instances) in
     let keypoint_results := heatmaps_to_keypoints x bboxes_flat in
     let num_instances_per_image :=
       map (fun i => Instances_len (objects w i)) pred_instances in
     (keypoint_results <- lift (split (select_0_1_3 keypoint_results)
                                      num_instances_per_image) ;;
      attach keypoint_results pred_instances) w)%monad.

(** [BaseKeypointRCNNHead.layers] (lines 204-208). *)
Definition BaseKeypointRCNNHead_layers (x : loc) : M loc :=
  lift (Raise NotImplementedError).

(** [BaseKeypointRCNNHead.forward] (lines 174-202); [layers] is the method
    the object's class supplies. *)
Definition BaseKeypointRCNNHead_forward (layers : loc -> M loc)
  (self : BaseKeypointRCNNHead) (x : loc) (instances : list loc) : M ForwardResult :=
  (x <- layers x ;;
   if training self then
     let num_images := length instances in
     let normalizer :=
       if normalize_by_visible_keypoints self then None
       else Some (INR num_images * normalizer_per_img self)%R in
     loss <- keypoint_rcnn_loss x instances normalizer ;;
     ret (LossDict [("loss_keypoint", (loss * loss_weight self)%R)])
   else
     (_ <- keypoint_rcnn_inference x instances ;;
      ret (PredictedInstances instances)))%monad.

(** A training step or an inference step of the process, and a run of them. *)
Inductive Call : Type :=
| LossCall (pred_keypoint_logits : loc) (instances : list loc) (normalizer : option R)
| InferenceCall (pred_keypoint_logits : loc) (pred_instances : list loc).

Definition run_call (c : Call) (w : World) : World :=
  match c with
  | LossCall x instances normalizer => snd (keypoint_rcnn_loss x instances normalizer w)
  | InferenceCall x pred_instances => snd (keypoint_rcnn_inference x pred_instances w)
  end.

Fixpoint run (calls : list Call) (w : World) : World :=
  match calls with
  | [] => w
  | c :: rest => run rest (run_call c w)
  end.

(** The flags of a batch, and the batches the loss skips, in the words of
    the specification: every per-image list is empty, or no flag is set. *)
Definition batch_flags (w : World) (x : loc) (instances : list loc) : list bool :=
  cat (snd (encode_images (objects w) (tH (tensors w x)) instances)).

Definition batch_targets (w : World) (x : loc) (instances : list loc) : list nat :=
  cat (fst (encode_images (objects w) (tH (tensors w x)) instances)).

Definition degenerate (w : World) (x : loc) (instances : list loc) : bool :=
  forallb (fun l => (Instances_len (objects w l) =? 0)%nat) instances
  || forallb negb (batch_flags w x instances).

End Stages.

(** ** The loss in the words of the specification *)

(** The S*S-way cross entropy of a row of logits against a bin index. *)
Definition xent (logits : list R) (bin : nat) : R :=
  (ln (Rsum (map exp logits)) - nth bin logits 0)%R.

(** The rows of the (R*K, S*S) reshape whose validity flag is set, each
    against its own target bin, summed. *)
Definition spec_loss_sum (x : Tensor) (targets : list nat) (flags : list bool) : R :=
  let rows := (tN x * tK x)%nat in
  let logits := view2 x rows (tH x * tW x) in
  Rsum (map (fun i => xent (row2 logits i) (nth i targets 0%nat))
            (filter (fun i => nth i flags false) (seq 0 rows))).

(** The normalizer the controller arranges for, in the words of the
    specification. *)
Definition spec_normalizer (cfg : Cfg) (num_images : nat) (num_valid : nat) : R :=
  if NORMALIZE_LOSS_BY_VISIBLE_KEYPOINTS cfg then INR num_valid
  else (IZR (NUM_KEYPOINTS cfg) * IZR (BATCH_SIZE_PER_IMAGE cfg)
        * POSITIVE_FRACTION cfg * INR num_images)%R.

(** The world after a skipped batch: the counter is one higher and its new
    value has been reported. *)
Definition skipped_world (w : World) : World :=
  mkWorld (_TOTAL_SKIPPED w + 1)
          (("kpts_num_skipped_batches", _TOTAL_SKIPPED w + 1) :: event_storage w)
          (tensors w) (objects w).

Section Counting.

Variable to_heatmap : Keypoints -> Boxes -> nat -> list (list nat) * list (list bool).
Variable heatmaps_to_keypoints : Tensor -> Boxes -> list (list (R * R * R * R)).

Definition skips (c : Call) (w : World) : bool :=
  match c with
  | LossCall x instances _ => degenerate to_heatmap w x instances
  | InferenceCall _ _ => false
  end.

(** The number of skipped batches among the calls of a run. *)
Fixpoint skipped_batches (calls : list Call) (w : World) : nat :=
  match calls with
  | [] => 0
  | c :: rest =>
      ((if skips c w then 1 else 0)
       + skipped_batches rest (run_call to_heatmap heatmaps_to_keypoints c w))%nat
  end.

(** The reports a run that starts with the counter at [c0] and skips [n]
    batches leaves in the event storage, the most recent first. *)
Definition skip_reports (c0 : Z) (n : nat) : list (string * Z) :=
  rev (map (fun k => ("kpts_num_skipped_batches", c0 + Z.of_nat k)) (seq 1 n)).

End Counting.

(** ** Small concrete inputs *)

Module Demo.

(** A configuration that carries a kernel size of 7 for the attention gate
    next to the entries the head reads. *)
Definition cfg : Cfg :=
  mkCfg 1%R false 17 512 (1 / 4)%R [512; 512] [("kernel_size", 7)].

Definition input_shape : ShapeSpec := mkShapeSpec 256.

(** A namespace in which [weight_init] has been bound. *)
Definition patched : list string := ["weight_init"].

(** Logits of shape (2, 1, 1, 2). *)
Definition logits : Tensor := mkTensor 2 1 1 2 [1; 2; 3; 4]%R.

Definition box : R * R * R * R := (0, 0, 1, 1)%R.

(** Image 0 has two instances, image 1 none, image 2 two instances again. *)
Definition image (l : loc) : Instances :=
  match l with
  | 0%nat => mkInstances 2 [[(0, 0, 2)]; [(1, 0, 0)]]%R [box; box] [box; box] None
  | 1%nat => mkInstances 0 [] [] [] None
  | _ => mkInstances 2 [[(0, 0, 0)]; [(0, 0, 0)]]%R [box; box] [box; box] None
  end.

Definition world : World := initial_world (fun _ => logits) image.

(** An encoder that, for an image of two instances with one keypoint each,
    puts the first in bin 1 with its flag set and leaves the flag of the
    second off; an encoder that sees no keypoint at all; and a decoder that
    answers with one row (x, y, logit, score) per keypoint of every
    instance. *)
Definition to_heatmap (k : Keypoints) (b : Boxes) (side : nat)
  : list (list nat) * list (list bool) :=
  match k with
  | [[(_, _, _)]; [(_, _, _)]] =>
      match b with
      | [_; _] => ([[1%nat]; [0%nat]], [[true]; [false]])
      | _ => ([], [])
      end
  | _ => ([], [])
  end.

Definition to_heatmap_blind (k : Keypoints) (b : Boxes) (side : nat)
  : list (list nat) * list (list bool) :=
  (map (map (fun _ => 0%nat)) k, map (map (fun _ => false)) k).

Definition heatmaps_to_keypoints (x : Tensor) (b : Boxes)
  : list (list (R * R * R * R)) :=
  map (fun i => repeat (INR i, 0, 5, 1)%R (tK x)) (seq 0 (tN x)).

(** A [layers] method that hands its input on. *)
Definition layers (x : loc) : M loc := ret x.

(** The summed loss of images 0 and 1 under [to_heatmap]: row 0 of the
    logits, (1, 2), against bin 1. *)
Definition loss_sum : R := (ln (exp 1 + (exp 2 + 0)) - 2 + 0)%R.

(** Three predicted images with 3, 0 and 5 instances, and logits for the
    8 instances. *)
Definition pred_image (l : loc) : Instances :=
  match l with
  | 0%nat => mkInstances 3 [] [] [box; box; box] None
  | 1%nat => mkInstances 0 [] [] [] None
  | _ => mkInstances 5 [] [] [box; box; box; box; box] None
  end.

Definition pred_logits : Tensor := mkTensor 8 1 1 1 [0; 0; 0; 0; 0; 0; 0; 0]%R.

Definition pred_world : World := initial_world (fun _ => pred_logits) pred_image.

End Demo.

(** ** Further definitions for the inference loop and further inputs *)

(** A collection with [pred_keypoints] set and its other fields kept. *)
Definition with_pred_keypoints (i : Instances) (value : list (list (R * R * R)))
  : Instances :=
  mkInstances (Instances_len i) (gt_keypoints i) (proposal_boxes i) (pred_boxes i)
              (Some value).

(** The value the loop of lines 113-115 assigns last to the collection [l],
    if it assigns to it at all. *)
Fixpoint last_assigned (keypoint_results : list (list (list (R * R * R))))
  (pred_instances : list loc) (l : loc) : option (list (list (R * R * R))) :=
  match keypoint_results, pred_instances with
  | r :: results, l0 :: rest =>
      match last_assigned results rest l with
      | Some r' => Some r'
      | None => if Nat.eqb l l0 then Some r else None
      end
  | _, _ => None
  end.

(** The instance counts of the collections, and the (x, y, score) rows the
    decoder yields for them: lines 107-111 up to the split. *)
Definition instance_counts (w : World) (pred_instances : list loc) : list nat :=
  map (fun i => Instances_len (objects w i)) pred_instances.

Definition decoded_rows
  (heatmaps_to_keypoints : Tensor -> Boxes -> list (list (R * R * R * R)))
  (w : World) (x : loc) (pred_instances : list loc) : list (list (R * R * R)) :=
  select_0_1_3
    (heatmaps_to_keypoints (tensors w x)
       (cat (map (fun b => pred_boxes (objects w b)) pred_instances))).

Module Cases.

(** Logits that agree with [Demo.logits] on row 0 and differ on row 1, in a
    world that holds both. *)
Definition other_logits : Tensor := mkTensor 2 1 1 2 [1; 2; 9; 9]%R.

Definition two_tensors (l : loc) : Tensor :=
  match l with
  | 0%nat => Demo.logits
  | _ => other_logits
  end.

Definition world : World := initial_world two_tensors Demo.image.

(** Logits for six instances, for a list of collections that names the
    collection of three instances twice. *)
Definition six_logits : Tensor := mkTensor 6 1 1 1 [0; 0; 0; 0; 0; 0]%R.

Definition alias_world : World := initial_world (fun _ => six_logits) Demo.pred_image.

End Cases.

(** ** The loss with float32 tensors

    The logits are float32 tensors.  Their arithmetic is that of IEEE 754
    binary32 (24 bits of precision, infinities at exponent 128), with
    rounding to nearest even, overflow to an infinity and nan. *)

Definition float32 : Type := spec_float.

Definition f32_add : float32 -> float32 -> float32 := SFadd 24 128.
Definition f32_mul : float32 -> float32 -> float32 := SFmul 24 128.
Definition f32_div : float32 -> float32 -> float32 := SFdiv 24 128.

(** A Python integer as a float32 scalar. *)
Definition f32_of_Z (n : Z) : float32 := binary_normalize 24 128 n 0 false.

(** A finite float, as opposed to an infinity or nan; and a float that
    equals zero, which +0 and -0 both do. *)
Definition f32_is_finite (f : float32) : bool :=
  match f with
  | S754_zero _ | S754_finite _ _ _ => true
  | S754_infinity _ | S754_nan => false
  end.

Definition f32_is_zero (f : float32) : bool :=
  match f with
  | S754_zero _ => true
  | _ => false
  end.

(** A float32 tensor of shape (N, K, H, W), elements in row-major order. *)
Record Tensor32 : Type := mkTensor32 {
  tN32 : nat; tK32 : nat; tH32 : nat; tW32 : nat;
  tdata32 : list float32
}.

(** A scalar tensor as autograd holds it: its value, and the tensors of the
    caller that its graph reaches (those a backward pass gives a gradient). *)
Record Scalar32 : Type := mkScalar32 {
  value : float32;
  graph : list loc
}.

(** [x.sum()] of the tensor held at [x]: the elements added up from +0; the
    result stays in the graph of [x]. *)
Definition sum32 (x : loc) (t : Tensor32) : Scalar32 :=
  mkScalar32 (fold_left f32_add (tdata32 t) (S754_zero false)) [x].

(** [s * c] and [s / d] for a Python number: the graph is that of [s]. *)
Definition mul32 (s : Scalar32) (c : float32) : Scalar32 :=
  mkScalar32 (f32_mul (value s) c) (graph s).

Definition div32 (s : Scalar32) (d : float32) : Scalar32 :=
  mkScalar32 (f32_div (value s) d) (graph s).

(** [m[idx]] on the (rows, cols) view of float32 elements. *)
Fixpoint index_rows32 (rows cols : nat) (data : list float32) (idx : list nat)
  : result (list (list float32)) :=
  match idx with
  | [] => Ok []
  | i :: rest =>
      if (i <? rows)%nat
      then (rs <- index_rows32 rows cols data rest ;;
            Ok (firstn cols (skipn (i * cols) data) :: rs))%result
      else Raise IndexError
  end.

Section Float32.

Variable to_heatmap : Keypoints -> Boxes -> nat -> list (list nat) * list (list bool).

(** [F.cross_entropy(input, target, reduction="sum")] on float32 rows,
    external. *)
Variable cross_entropy32 : list (list float32) -> list nat -> result float32.

(** [keypoint_rcnn_loss] (lines 30-86) on float32 logits; [tensors32] holds
    the float32 tensors of the caller. *)
Definition keypoint_rcnn_loss32 (tensors32 : loc -> Tensor32)
  (pred_keypoint_logits : loc) (instances : list loc) (normalizer : option float32)
  : M Scalar32 :=
  fun w =>
    let x := tensors32 pred_keypoint_logits in
    let keypoint_side_len := tH32 x in
    let '(heatmaps, valid) :=
      encode_images to_heatmap (objects w) keypoint_side_len instances in
    let keypoint_targets := cat heatmaps in
    let valid := nonzero (cat valid) in
    if (length heatmaps =? 0)%nat || (length valid =? 0)%nat then
      (_ <- incr_TOTAL_SKIPPED ;;
       skipped <- get_TOTAL_SKIPPED ;;
       _ <- put_scalar "kpts_num_skipped_batches" skipped ;;
       ret (mul32 (sum32 pred_keypoint_logits x) (f32_of_Z 0)))%monad w
    else
      let '(N, K, H, W) := (tN32 x, tK32 x, tH32 x, tW32 x) in
      (rows <- lift (index_rows32 (N * K) (H * W) (tdata32 x) valid) ;;
       targets <- lift (index_flat keypoint_targets valid) ;;
       loss <- lift (cross_entropy32 rows targets) ;;
       let keypoint_loss := mkScalar32 loss [pred_keypoint_logits] in
       let normalizer :=
         match normalizer with
         | None => f32_of_Z (Z.of_nat (length valid))
         | Some n => n
         end in
       ret (div32 keypoint_loss normalizer))%monad w.

(** The batches the loss skips, in the words of the specification: every
    per-image list is empty, or no flag is set. *)
Definition degenerate32 (w : World) (x : Tensor32) (instances : list loc) : bool :=
  forallb (fun l => (Instances_len (objects w l) =? 0)%nat) instances
  || forallb negb (cat (snd (encode_images to_heatmap (objects w) (tH32 x) instances))).

End Float32.

Module Cases32.

(** The float32 numbers 1, 2, 3, 4 and the float32 nearest to 3e38. *)
Definition one : float32 := S754_finite false 8388608 (-23).
Definition two : float32 := S754_finite false 8388608 (-22).
Definition three : float32 := S754_finite false 12582912 (-22).
Definition four : float32 := S754_finite false 8388608 (-21).
Definition f3e38 : float32 := S754_finite false 14791142 104.

(** Logits of shape (2, 1, 1, 2): small ones, and finite ones whose sum is
    past the largest float32. *)
Definition small_logits : Tensor32 := mkTensor32 2 1 1 2 [one; two; three; four].

Definition large_logits : Tensor32 :=
  mkTensor32 2 1 1 2 [f3e38; f3e38; S754_zero false; S754_zero false].

(** A cross entropy that is never reached on a skipped batch. *)
Definition cross_entropy32 (input : list (list float32)) (target : list nat)
  : result float32 := Ok (S754_zero false).

End Cases32.

(** * Properties *)

(** ** Results and name resolution *)

Lemma resolve_module_global (extra : list string) (name : string) :
  In name module_globals -> resolve extra name = Ok tt.
Proof.
  intros Hin. unfold resolve, bound.
  replace (existsb (String.eqb name) (module_globals ++ extra)) with true; [reflexivity|].
  symmetry. apply existsb_exists. exists name. split.
  - apply in_or_app. now left.
  - apply String.eqb_refl.
Qed.

Lemma resolve_SpatialAttention extra : resolve extra "SpatialAttention" = Ok tt.
Proof. apply resolve_module_global. unfold module_globals. simpl. tauto. Qed.

Lemma resolve_Conv2d extra : resolve extra "Conv2d" = Ok tt.
Proof. apply resolve_module_global. unfold module_globals. simpl. tauto. Qed.

Lemma resolve_nn extra : resolve extra "nn" = Ok tt.
Proof. apply resolve_module_global. unfold module_globals. simpl. tauto. Qed.

(** What a gate that has been constructed looks like. *)
Lemma SpatialAttention_init_Ok (extra : list string) (k : Z) (self : SpatialAttention) :
  SpatialAttention_init extra k = Ok self ->
  (k = 3 \/ k = 7) /\
  conv self = Conv2d 2 1 k 1 (if k =? 7 then 3 else 1) false.
Proof.
  unfold SpatialAttention_init.
  rewrite resolve_SpatialAttention, resolve_Conv2d, resolve_nn. cbn [rbind].
  destruct (k =? 3) eqn:E3; destruct (k =? 7) eqn:E7; cbn [orb negb];
    try discriminate;
    destruct (resolve extra "weight_init"); cbn [rbind]; try discriminate;
    intros [= <-]; split; try reflexivity.
  - left. now apply Z.eqb_eq.
  - left. now apply Z.eqb_eq.
  - right. now apply Z.eqb_eq.
Qed.

Lemma conv_out_same (l : ConvSpec) (k h : Z) :
  (k = 3 \/ k = 7) ->
  l = Conv2d 2 1 k 1 (if k =? 7 then 3 else 1) false ->
  conv_out l h = h.
Proof.
  intros [-> | ->] ->; unfold conv_out; cbn; rewrite Z.div_1_r; lia.
Qed.

Lemma broadcast_dim_refl (a : Z) : broadcast_dim a a = Ok a.
Proof. unfold broadcast_dim. now rewrite Z.eqb_refl. Qed.

Lemma broadcast_dim_one (a : Z) : broadcast_dim a 1 = Ok a.
Proof.
  unfold broadcast_dim. destruct (a =? 1) eqn:E.
  - apply Z.eqb_eq in E. now subst.
  - reflexivity.
Qed.

Lemma Max_shape (x : Shape) :
  Max x = Ok (mkShape (dimN x) 1 (dimH x) (dimW x)).
Proof.
  unfold Max, torch_max_dim1. destruct (numel x =? 0); reflexivity.
Qed.

(** The gate gives back the shape it was given, whatever that shape is. *)
Lemma SpatialAttention_forward_shape (extra : list string) (k : Z)
  (self : SpatialAttention) (x : Shape) :
  SpatialAttention_init extra k = Ok self ->
  SpatialAttention_forward self x = Ok x.
Proof.
  intros Hinit. destruct (SpatialAttention_init_Ok _ _ _ Hinit) as [Hk Hconv].
  unfold SpatialAttention_forward. rewrite Max_shape. cbn [rbind].
  unfold torch_cat_dim1, torch_mean_dim1. cbn [dimN dimC dimH dimW].
  rewrite !Z.eqb_refl. cbn [andb rbind].
  unfold Conv2d_forward. cbn [dimN dimC dimH dimW].
  rewrite !(conv_out_same _ k _ Hk Hconv).
  rewrite Hconv. cbn [Conv2d in_channels out_channels Z.add Z.eqb Pos.add Pos.eqb rbind].
  unfold mul_broadcast, sigmoid. cbn [dimN dimC dimH dimW].
  rewrite !broadcast_dim_refl, broadcast_dim_one. cbn [rbind].
  now destruct x.
Qed.

(** The convolution blocks thread the channels and keep the rest. *)
Lemma apply_blocks_conv_fcn (conv_dims : list Z) (c : Z) (x : Shape) :
  dimC x = c ->
  apply_blocks (fst (conv_fcn c conv_dims)) x
  = Ok (mkShape (dimN x) (snd (conv_fcn c conv_dims)) (dimH x) (dimW x)).
Proof.
  revert c x. induction conv_dims as [|d ds IH]; intros c x Hc.
  - cbn. subst c. now destruct x.
  - cbn [conv_fcn]. destruct (conv_fcn d ds) as [bs c'] eqn:E.
    cbn [fst snd apply_blocks]. unfold Conv2d_forward, Conv2d, relu.
    cbn [in_channels out_channels]. rewrite Hc, Z.eqb_refl. cbn [rbind].
    match goal with |- apply_blocks bs ?y = _ => specialize (IH d y eq_refl) end.
    rewrite E in IH. cbn [fst snd dimN dimC dimH dimW] in IH. rewrite IH.
    unfold conv_out. cbn [kernel_size stride padding]. rewrite !Z.div_1_r.
    f_equal. f_equal; lia.
Qed.

Lemma head_init_Ok (extra : list string) (cfg : Cfg) (input_shape : ShapeSpec)
  (head : KRCNNConvDeconvUpsampleHead) :
  KRCNNConvDeconvUpsampleHead_init extra cfg input_shape = Ok head ->
  SpatialAttention_init extra SpatialAttention_default_kernel_size = Ok (spatialAtt head) /\
  blocks head = fst (conv_fcn (channels input_shape) (CONV_DIMS cfg)) /\
  score_lowres head
  = ConvTranspose2d (snd (conv_fcn (channels input_shape) (CONV_DIMS cfg)))
                    (NUM_KEYPOINTS cfg) 4 2 1 /\
  up_scale head = 2 /\
  base head = BaseKeypointRCNNHead_init cfg input_shape.
Proof.
  unfold KRCNNConvDeconvUpsampleHead_init.
  destruct (conv_fcn (channels input_shape) (CONV_DIMS cfg)) as [bs c].
  destruct (SpatialAttention_init extra SpatialAttention_default_kernel_size) as [sa|e];
    cbn [rbind]; [|discriminate].
  intros [= <-]. cbn. repeat split.
Qed.

(** C5.  Constructing the attention gate with a kernel size outside {3, 7}
    fails at once on the assertion; with kernel size 3 or 7 it does not
    succeed either: the module as written never binds [weight_init], so the
    initialisation of the convolution raises NameError. *)
Theorem SpatialAttention_init_raises (kernel_size : Z) :
  SpatialAttention_init [] kernel_size
  = if (kernel_size =? 3) || (kernel_size =? 7)
    then Raise (NameError "weight_init")
    else Raise (AssertionError "kernel size must be 3 or 7").
Proof.
  unfold SpatialAttention_init.
  rewrite resolve_SpatialAttention, resolve_Conv2d. cbn [rbind].
  destruct ((kernel_size =? 3) || (kernel_size =? 7)); reflexivity.
Qed.

(** C6, as the claim has it: a configuration that asks for kernel size 7 does
    not get a head whose gate convolves with kernel size 7, neither from the
    module as written nor once [weight_init] is bound. *)
Lemma head_gate_not_configured :
  cfg_get (other_keys Demo.cfg) "kernel_size" = Some 7 /\
  ~ (exists head,
        KRCNNConvDeconvUpsampleHead_init [] Demo.cfg Demo.input_shape = Ok head /\
        kernel_size (conv (spatialAtt head)) = 7) /\
  ~ (exists head,
        KRCNNConvDeconvUpsampleHead_init Demo.patched Demo.cfg Demo.input_shape = Ok head /\
        kernel_size (conv (spatialAtt head)) = 7).
Proof.
  split; [reflexivity|]. split.
  - intros [head [H _]]. discriminate H.
  - intros [head [H Hk]]. injection H as <-. discriminate Hk.
Qed.

(** C6, amended.  The kernel size of the gate is an argument of its
    constructor, 3 or 7, with padding 1 for 3 and 3 for 7; the head passes
    none and reads no such entry of the configuration, so the gate of every
    head applies a convolution of kernel size 3 and padding 1. *)
Theorem head_gate_kernel_size (extra : list string) :
  (forall k self,
      SpatialAttention_init extra k = Ok self ->
      (k = 3 \/ k = 7) /\
      kernel_size (conv self) = k /\
      padding (conv self) = (k - 1) / 2) /\
  (forall cfg input_shape head,
      KRCNNConvDeconvUpsampleHead_init extra cfg input_shape = Ok head ->
      kernel_size (conv (spatialAtt head)) = 3 /\
      padding (conv (spatialAtt head)) = 1).
Proof.
  split.
  - intros k self H. destruct (SpatialAttention_init_Ok _ _ _ H) as [Hk ->].
    split; [exact Hk|]. destruct Hk as [-> | ->]; split; reflexivity.
  - intros cfg input_shape head H.
    destruct (head_init_Ok _ _ _ _ H) as [Hsa _].
    destruct (SpatialAttention_init_Ok _ _ _ Hsa) as [_ ->]. split; reflexivity.
Qed.

Lemma head_gate_kernel_size_witness :
  exists head,
    KRCNNConvDeconvUpsampleHead_init Demo.patched Demo.cfg Demo.input_shape = Ok head /\
    kernel_size (conv (spatialAtt head)) = 3 /\
    padding (conv (spatialAtt head)) = 1.
Proof.
  eexists. split; [reflexivity|].
  apply (proj2 (head_gate_kernel_size Demo.patched) Demo.cfg Demo.input_shape).
  reflexivity.
Defined.

(** C8.  On an input of shape (0, C, H, W) the channel maximum is the empty
    tensor of shape (0, 1, H, W) made by [_NewEmptyTensorOp], and the
    forward pass of the gate returns shape (0, C, H, W). *)
Theorem SpatialAttention_forward_empty (extra : list string) (k : Z)
  (self : SpatialAttention) (C H W : Z) :
  SpatialAttention_init extra k = Ok self ->
  let x := mkShape 0 C H W in
  Max x = Ok (NewEmptyTensorOp_apply x (0, 1, H, W)) /\
  SpatialAttention_forward self x = Ok (mkShape 0 C H W).
Proof.
  intros Hinit x. split.
  - reflexivity.
  - exact (SpatialAttention_forward_shape _ _ _ x Hinit).
Qed.

Lemma SpatialAttention_forward_empty_witness :
  exists self,
    SpatialAttention_init Demo.patched 7 = Ok self /\
    SpatialAttention_forward self (mkShape 0 256 14 14) = Ok (mkShape 0 256 14 14).
Proof.
  eexists. split; [reflexivity|].
  apply (SpatialAttention_forward_empty Demo.patched 7 _ 256 14 14). reflexivity.
Defined.

(** C9.  The forward pass of the network of a head built for [C_in] input
    channels and K keypoints takes shape (R, C_in, H, W) to (R, K, 4H, 4W). *)
Theorem layers_shape (extra : list string) (cfg : Cfg) (input_shape : ShapeSpec)
  (head : KRCNNConvDeconvUpsampleHead) (R_ H W : Z) :
  KRCNNConvDeconvUpsampleHead_init extra cfg input_shape = Ok head ->
  KRCNNConvDeconvUpsampleHead_layers head (mkShape R_ (channels input_shape) H W)
  = Ok (mkShape R_ (NUM_KEYPOINTS cfg) (4 * H) (4 * W)).
Proof.
  intros Hinit.
  destruct (head_init_Ok _ _ _ _ Hinit) as (Hsa & Hb & Hs & Hu & _).
  unfold KRCNNConvDeconvUpsampleHead_layers.
  rewrite (SpatialAttention_forward_shape _ _ _ _ Hsa). cbn [rbind].
  rewrite Hb, (apply_blocks_conv_fcn _ (channels input_shape)) by reflexivity.
  cbn [rbind dimN dimC dimH dimW]. rewrite Hs, Hu.
  unfold ConvTranspose2d_forward, ConvTranspose2d.
  cbn [in_channels out_channels dimN dimC dimH dimW]. rewrite Z.eqb_refl.
  cbn [rbind]. unfold interpolate, deconv_out.
  cbn [kernel_size stride padding dimN dimC dimH dimW].
  f_equal. f_equal; lia.
Qed.

Lemma layers_shape_witness :
  exists head,
    KRCNNConvDeconvUpsampleHead_init Demo.patched Demo.cfg Demo.input_shape = Ok head /\
    KRCNNConvDeconvUpsampleHead_layers head (mkShape 8 256 14 14)
    = Ok (mkShape 8 17 56 56).
Proof.
  eexists. split; [reflexivity|].
  apply (layers_shape Demo.patched Demo.cfg Demo.input_shape _ 8 14 14). reflexivity.
Defined.

(** ** The training loss *)

Section LossFacts.

Variable to_heatmap : Keypoints -> Boxes -> nat -> list (list nat) * list (list bool).

Local Abbreviation encode_images := (encode_images to_heatmap).
Local Abbreviation degenerate := (degenerate to_heatmap).
Local Abbreviation batch_flags := (batch_flags to_heatmap).
Local Abbreviation batch_targets := (batch_targets to_heatmap).
Local Abbreviation keypoint_rcnn_loss := (keypoint_rcnn_loss to_heatmap).

Lemma encode_images_no_heatmaps objs side instances :
  (length (fst (encode_images objs side instances)) =? 0)%nat
  = forallb (fun l => (Instances_len (objs l) =? 0)%nat) instances.
Proof.
  induction instances as [|l rest IH]; [reflexivity|].
  cbn [encode_images forallb].
  destruct (encode_images objs side rest) as [hs vs].
  destruct (Instances_len (objs l) =? 0)%nat; [exact IH|].
  destruct (to_heatmap _ _ _). reflexivity.
Qed.

Lemma nonzero_from_none (i : nat) (flags : list bool) :
  (length (nonzero_from i flags) =? 0)%nat = forallb negb flags.
Proof.
  revert i. induction flags as [|b flags IH]; intros i; [reflexivity|].
  cbn [nonzero_from forallb]. destruct b; [reflexivity|]. apply IH.
Qed.

(** The two paths of the loss. *)
Lemma keypoint_rcnn_loss_paths x instances normalizer w :
  keypoint_rcnn_loss x instances normalizer w
  = if degenerate w x instances
    then (Ok (tensor_sum (tensors w x) * 0)%R, skipped_world w)
    else
      let valid := nonzero (batch_flags w x instances) in
      match keypoint_loss_sum (tensors w x) (batch_targets w x instances) valid with
      | Ok keypoint_loss =>
          (Ok (keypoint_loss / match normalizer with
                               | None => INR (length valid)
                               | Some n => n
                               end)%R, w)
      | Raise e => (Raise e, w)
      end.
Proof.
  unfold keypoint_rcnn_loss, degenerate, batch_flags, batch_targets, bind, read_tensor.
  rewrite <- encode_images_no_heatmaps with (side := tH (tensors w x)).
  unfold nonzero. rewrite <- nonzero_from_none with (i := 0%nat).
  destruct (encode_images (objects w) (tH (tensors w x)) instances) as [hs vs].
  cbn [fst snd].
  destruct ((length hs =? 0)%nat || (length (nonzero_from 0 (cat vs)) =? 0)%nat).
  - reflexivity.
  - unfold lift, ret.
    destruct (keypoint_loss_sum (tensors w x) (cat hs) (nonzero_from 0 (cat vs)));
      reflexivity.
Qed.

(** The world a call of the loss leaves behind. *)
Lemma keypoint_rcnn_loss_world x instances normalizer w :
  snd (keypoint_rcnn_loss x instances normalizer w)
  = if degenerate w x instances then skipped_world w else w.
Proof.
  rewrite keypoint_rcnn_loss_paths.
  destruct (degenerate w x instances); cbn [snd]; [reflexivity|].
  cbv zeta. destruct (keypoint_loss_sum _ _ _); reflexivity.
Qed.

(** C10.  A call of the loss leaves the logits and the instance
    collections as they were; on the skipping path it adds one to the
    counter and reports it, and on the other path it changes nothing. *)
Theorem keypoint_rcnn_loss_frame x instances normalizer w :
  let w' := snd (keypoint_rcnn_loss x instances normalizer w) in
  tensors w' = tensors w /\
  objects w' = objects w /\
  w' = if degenerate w x instances then skipped_world w else w.
Proof.
  cbv zeta. rewrite keypoint_rcnn_loss_world.
  destruct (degenerate w x instances); repeat split.
Qed.

(** *** The rows in [valid] *)

Lemma nonzero_from_filter (i : nat) (flags : list bool) :
  nonzero_from i flags
  = filter (fun j => nth (j - i) flags false) (seq i (length flags)).
Proof.
  revert i. induction flags as [|b flags IH]; intros i; [reflexivity|].
  cbn [nonzero_from length seq filter]. rewrite Nat.sub_diag. cbn [nth].
  rewrite IH.
  assert (E : filter (fun j => nth (j - S i) flags false) (seq (S i) (length flags))
              = filter (fun j => nth (j - i) (b :: flags) false) (seq (S i) (length flags))).
  { apply filter_ext_in. intros j Hj. apply in_seq in Hj.
    replace (j - i)%nat with (S (j - S i)) by lia. reflexivity. }
  rewrite E. destruct b; reflexivity.
Qed.

Lemma nonzero_filter (flags : list bool) :
  nonzero flags = filter (fun j => nth j flags false) (seq 0 (length flags)).
Proof.
  unfold nonzero. rewrite nonzero_from_filter.
  apply filter_ext. intros j. now rewrite Nat.sub_0_r.
Qed.

Lemma nonzero_spec (flags : list bool) (i : nat) :
  In i (nonzero flags) <-> (i < length flags)%nat /\ nth i flags false = true.
Proof.
  rewrite nonzero_filter, filter_In, in_seq. intuition lia.
Qed.

Lemma index_rows_map (m : Tensor2) (idx : list nat) :
  Forall (fun i => (i < rows2 m)%nat) idx ->
  index_rows m idx = Ok (map (row2 m) idx).
Proof.
  induction 1 as [|i idx Hi _ IH]; [reflexivity|].
  cbn [index_rows map]. apply Nat.ltb_lt in Hi. now rewrite Hi, IH.
Qed.

Lemma index_flat_map (t : list nat) (idx : list nat) :
  Forall (fun i => (i < length t)%nat) idx ->
  index_flat t idx = Ok (map (fun i => nth i t 0%nat) idx).
Proof.
  induction 1 as [|i idx Hi _ IH]; [reflexivity|].
  cbn [index_flat map]. rewrite (nth_error_nth' t 0%nat Hi), IH. reflexivity.
Qed.

Lemma cross_entropy_row_xent (logits : list R) (bin : nat) :
  (bin < length logits)%nat ->
  cross_entropy_row logits bin = Ok (xent logits bin).
Proof.
  intros Hb. unfold cross_entropy_row, xent.
  now rewrite (nth_error_nth' logits 0%R Hb).
Qed.

Lemma cross_entropy_sum_map (f : nat -> list R) (g : nat -> nat) (idx : list nat) :
  Forall (fun i => (g i < length (f i))%nat) idx ->
  cross_entropy_sum (map f idx) (map g idx)
  = Ok (Rsum (map (fun i => xent (f i) (g i)) idx)).
Proof.
  induction 1 as [|i idx Hi _ IH]; [reflexivity|].
  cbn [map cross_entropy_sum]. rewrite (cross_entropy_row_xent _ _ Hi), IH.
  reflexivity.
Qed.

Lemma row2_length (m : Tensor2) (i : nat) :
  length (data2 m) = (rows2 m * cols2 m)%nat ->
  (i < rows2 m)%nat ->
  length (row2 m i) = cols2 m.
Proof.
  intros Hlen Hi. unfold row2. rewrite length_firstn, length_skipn, Hlen. nia.
Qed.

Lemma encode_images_lengths objs side instances :
  length (fst (encode_images objs side instances))
  = length (snd (encode_images objs side instances)).
Proof.
  induction instances as [|l rest IH]; [reflexivity|].
  cbn [encode_images]. destruct (encode_images objs side rest) as [hs vs].
  destruct (Instances_len (objs l) =? 0)%nat; [exact IH|].
  destruct (to_heatmap _ _ _). cbn in *. now rewrite IH.
Qed.

(** A batch with a visible keypoint is not skipped. *)
Lemma visible_not_degenerate w x instances :
  In true (batch_flags w x instances) -> degenerate w x instances = false.
Proof.
  intros Hin. unfold degenerate. apply orb_false_iff. split.
  - rewrite <- encode_images_no_heatmaps with (side := tH (tensors w x)).
    apply Nat.eqb_neq. intros Hz. rewrite encode_images_lengths in Hz.
    unfold batch_flags in Hin. apply length_zero_iff_nil in Hz.
    rewrite Hz in Hin. exact Hin.
  - destruct (forallb negb (batch_flags w x instances)) eqn:E; [|reflexivity].
    rewrite forallb_forall in E. specialize (E true Hin). discriminate E.
Qed.

(** C2.  On a batch with a visible keypoint the loss before normalization
    is the cross entropy of the rows of the (R*K, S*S) reshape whose flag
    is set, each against its target bin, summed; the loss returned is
    that sum over the normalizer. *)
Theorem keypoint_loss_masked_sum x instances normalizer w :
  let t := tensors w x in
  let flags := batch_flags w x instances in
  let targets := batch_targets w x instances in
  length (tdata t) = (tN t * tK t * (tH t * tW t))%nat ->
  length flags = (tN t * tK t)%nat ->
  length targets = (tN t * tK t)%nat ->
  (forall i, nth i flags false = true -> (nth i targets 0 < tH t * tW t)%nat) ->
  In true flags ->
  keypoint_loss_sum t targets (nonzero flags) = Ok (spec_loss_sum t targets flags) /\
  keypoint_rcnn_loss x instances normalizer w
  = (Ok (spec_loss_sum t targets flags
         / match normalizer with
           | None => INR (length (nonzero flags))
           | Some n => n
           end)%R, w).
Proof.
  intros t flags targets Hdata Hflags Htargets Hbins Hvis.
  assert (Hsum : keypoint_loss_sum t targets (nonzero flags)
                 = Ok (spec_loss_sum t targets flags)).
  { unfold keypoint_loss_sum, spec_loss_sum.
    set (m := view2 t (tN t * tK t) (tH t * tW t)).
    assert (Hidx : Forall (fun i => (i < tN t * tK t)%nat) (nonzero flags)).
    { apply Forall_forall. intros i Hi. apply nonzero_spec in Hi. lia. }
    rewrite index_rows_map by exact Hidx. cbn [rbind].
    rewrite index_flat_map by (rewrite Htargets; exact Hidx). cbn [rbind].
    rewrite cross_entropy_sum_map.
    - rewrite nonzero_filter, Hflags. reflexivity.
    - apply Forall_forall. intros i Hi. apply nonzero_spec in Hi.
      rewrite row2_length; [apply Hbins; tauto | exact Hdata | cbn; lia]. }
  split; [exact Hsum|].
  rewrite keypoint_rcnn_loss_paths, (visible_not_degenerate _ _ _ Hvis).
  cbv zeta. fold t flags targets. rewrite Hsum. reflexivity.
Qed.

End LossFacts.

(** ** The controller, the inference stage and the skip counter *)

Section StageFacts.

Variable to_heatmap : Keypoints -> Boxes -> nat -> list (list nat) * list (list bool).
Variable heatmaps_to_keypoints : Tensor -> Boxes -> list (list (R * R * R * R)).

Local Abbreviation degenerate := (degenerate to_heatmap).
Local Abbreviation batch_flags := (batch_flags to_heatmap).
Local Abbreviation batch_targets := (batch_targets to_heatmap).
Local Abbreviation keypoint_rcnn_loss := (keypoint_rcnn_loss to_heatmap).
Local Abbreviation keypoint_rcnn_inference :=
  (keypoint_rcnn_inference heatmaps_to_keypoints).
Local Abbreviation forward :=
  (BaseKeypointRCNNHead_forward to_heatmap heatmaps_to_keypoints).
Local Abbreviation run_call := (run_call to_heatmap heatmaps_to_keypoints).
Local Abbreviation run := (run to_heatmap heatmaps_to_keypoints).
Local Abbreviation skips := (skips to_heatmap).
Local Abbreviation skipped_batches :=
  (skipped_batches to_heatmap heatmaps_to_keypoints).

(** C3.  On a batch that is not skipped the summed loss is divided by the
    normalizer that was passed, or by the number of valid keypoints when
    none was; the controller passes none when it normalizes by visible
    keypoints and K x budget x fraction x images otherwise, and in training
    mode returns the quotient times the loss weight under "loss_keypoint". *)
Theorem forward_training_loss (layers : loc -> M loc) (cfg : Cfg)
  (input_shape : ShapeSpec) (x : loc) (instances : list loc) (w : World)
  (x' : loc) (w1 : World) (keypoint_loss : R) :
  let self := BaseKeypointRCNNHead_init cfg input_shape in
  let valid := nonzero (batch_flags w1 x' instances) in
  layers x w = (Ok x', w1) ->
  degenerate w1 x' instances = false ->
  keypoint_loss_sum (tensors w1 x') (batch_targets w1 x' instances) valid
  = Ok keypoint_loss ->
  (forall normalizer,
      keypoint_rcnn_loss x' instances normalizer w1
      = (Ok (keypoint_loss / match normalizer with
                             | Some n => n
                             | None => INR (length valid)
                             end)%R, w1)) /\
  forward layers self x instances w
  = (Ok (LossDict
           [("loss_keypoint",
             (keypoint_loss / spec_normalizer cfg (length instances) (length valid)
              * LOSS_WEIGHT cfg)%R)]), w1).
Proof.
  intros self valid Hlayers Hd Hsum.
  assert (Hloss : forall normalizer,
             keypoint_rcnn_loss x' instances normalizer w1
             = (Ok (keypoint_loss / match normalizer with
                                    | Some n => n
                                    | None => INR (length valid)
                                    end)%R, w1)).
  { intros normalizer. rewrite keypoint_rcnn_loss_paths, Hd. cbv zeta.
    fold valid. rewrite Hsum. destruct normalizer; reflexivity. }
  split; [exact Hloss|].
  unfold BaseKeypointRCNNHead_forward, bind. rewrite Hlayers.
  cbn [training self BaseKeypointRCNNHead_init normalize_by_visible_keypoints
       normalizer_per_img loss_weight].
  rewrite Hloss. unfold ret, spec_normalizer.
  destruct (NORMALIZE_LOSS_BY_VISIBLE_KEYPOINTS cfg); [reflexivity|].
  rewrite mult_IZR.
  replace (INR (length instances)
           * (IZR (NUM_KEYPOINTS cfg) * IZR (BATCH_SIZE_PER_IMAGE cfg)
              * POSITIVE_FRACTION cfg))%R
    with (IZR (NUM_KEYPOINTS cfg) * IZR (BATCH_SIZE_PER_IMAGE cfg)
          * POSITIVE_FRACTION cfg * INR (length instances))%R by ring.
  reflexivity.
Qed.

(** *** Splitting and attaching *)

Lemma chunks_concat {A : Type} (sizes : list nat) (l : list A) :
  list_sum sizes = length l ->
  concat (chunks l sizes) = l /\ map (@length A) (chunks l sizes) = sizes.
Proof.
  revert l. induction sizes as [|n sizes IH]; intros l Hsum.
  - cbn in *. symmetry in Hsum. apply length_zero_iff_nil in Hsum. now subst.
  - cbn [list_sum fold_right] in Hsum. cbn [chunks concat map].
    destruct (IH (skipn n l)) as [Hc Hl].
    { rewrite length_skipn. fold (list_sum sizes) in Hsum. lia. }
    rewrite Hc, Hl, firstn_skipn, length_firstn.
    fold (list_sum sizes) in Hsum. split; [reflexivity|]. f_equal. lia.
Qed.

Lemma attach_Ok results pred_instances w :
  fst (attach results pred_instances w) = Ok tt.
Proof.
  revert results w.
  induction pred_instances as [|l rest IH]; intros [|r results] w; try reflexivity.
  cbn [attach]. unfold bind, set_pred_keypoints. apply IH.
Qed.

(** What [attach] leaves alone: the counter, the event storage, the
    tensors, every collection that is not in the list, and the other
    fields of those that are. *)
Lemma attach_frame results pred_instances w :
  let w' := snd (attach results pred_instances w) in
  _TOTAL_SKIPPED w' = _TOTAL_SKIPPED w /\
  event_storage w' = event_storage w /\
  tensors w' = tensors w /\
  (forall l, ~ In l pred_instances -> objects w' l = objects w l) /\
  (forall l, Instances_len (objects w' l) = Instances_len (objects w l) /\
             gt_keypoints (objects w' l) = gt_keypoints (objects w l) /\
             proposal_boxes (objects w' l) = proposal_boxes (objects w l) /\
             pred_boxes (objects w' l) = pred_boxes (objects w l)).
Proof.
  revert results w.
  induction pred_instances as [|l0 rest IH]; intros [|r results] w;
    try (cbn; repeat split; fail).
  cbn [attach]. unfold bind. cbn [set_pred_keypoints].
  set (w1 := mkWorld _ _ _ _).
  destruct (IH results w1) as (Hc & Hs & Ht & Ho & Hf).
  cbv zeta. rewrite Hc, Hs, Ht. repeat split; try reflexivity.
  - intros l Hl. rewrite Ho by (intros Hin; apply Hl; now right).
    unfold w1. cbn [objects]. unfold update.
    destruct (Nat.eqb_spec l l0) as [->|_]; [|reflexivity].
    exfalso. apply Hl. now left.
  - destruct (Hf l) as (-> & _). unfold w1. cbn [objects]. unfold update.
    destruct (Nat.eqb_spec l l0) as [->|_]; reflexivity.
  - destruct (Hf l) as (_ & -> & _). unfold w1. cbn [objects]. unfold update.
    destruct (Nat.eqb_spec l l0) as [->|_]; reflexivity.
  - destruct (Hf l) as (_ & _ & -> & _). unfold w1. cbn [objects]. unfold update.
    destruct (Nat.eqb_spec l l0) as [->|_]; reflexivity.
  - destruct (Hf l) as (_ & _ & _ & ->). unfold w1. cbn [objects]. unfold update.
    destruct (Nat.eqb_spec l l0) as [->|_]; reflexivity.
Qed.

Lemma attach_pred_keypoints results pred_instances w :
  NoDup pred_instances ->
  length results = length pred_instances ->
  map (fun l => pred_keypoints (objects (snd (attach results pred_instances w)) l))
      pred_instances
  = map Some results.
Proof.
  intros Hnd. revert results w.
  induction Hnd as [|l0 rest Hnotin _ IH]; intros [|r results] w Hlen;
    try discriminate; [reflexivity|].
  cbn [attach]. unfold bind. cbn [set_pred_keypoints].
  set (w1 := mkWorld _ _ _ _). cbn [map]. f_equal.
  - destruct (attach_frame results rest w1) as (_ & _ & _ & Ho & _).
    rewrite (Ho l0 Hnotin). unfold w1. cbn [objects]. unfold update.
    now rewrite Nat.eqb_refl.
  - apply IH. now injection Hlen.
Qed.

(** C4.  When the instance counts of the collections add up to the number
    of rows the decoder returns, one per instance of the logits, the
    inference stage returns nothing and leaves on the i-th collection, as
    [pred_keypoints], the i-th chunk of the (x, y, score) columns of the
    decoder's rows: the chunks have the instance counts as lengths and
    concatenate to the whole; nothing else changes. *)
Theorem keypoint_rcnn_inference_attaches (x : loc) (pred_instances : list loc)
  (w : World) :
  let logits := tensors w x in
  let boxes := cat (map (fun b => pred_boxes (objects w b)) pred_instances) in
  let decoded := heatmaps_to_keypoints logits boxes in
  let counts := map (fun i => Instances_len (objects w i)) pred_instances in
  NoDup pred_instances ->
  length decoded = tN logits ->
  list_sum counts = tN logits ->
  exists w' results,
    keypoint_rcnn_inference x pred_instances w = (Ok tt, w') /\
    map (fun l => pred_keypoints (objects w' l)) pred_instances = map Some results /\
    concat results
    = map (map (fun p => (fst (fst (fst p)), snd (fst (fst p)), snd p))) decoded /\
    map (@length _) results = counts /\
    _TOTAL_SKIPPED w' = _TOTAL_SKIPPED w /\
    event_storage w' = event_storage w /\
    tensors w' = tensors w /\
    (forall l, ~ In l pred_instances -> objects w' l = objects w l) /\
    (forall l, Instances_len (objects w' l) = Instances_len (objects w l) /\
               gt_keypoints (objects w' l) = gt_keypoints (objects w l) /\
               proposal_boxes (objects w' l) = proposal_boxes (objects w l) /\
               pred_boxes (objects w' l) = pred_boxes (objects w l)).
Proof.
  intros logits boxes decoded counts Hnd Hdec Hsum.
  assert (Hsel : select_0_1_3 decoded
                 = map (map (fun p => (fst (fst (fst p)), snd (fst (fst p)), snd p)))
                       decoded).
  { unfold select_0_1_3. apply map_ext. intros r. apply map_ext.
    intros [[[a b] c] d]. reflexivity. }
  assert (Hlen : list_sum counts = length (select_0_1_3 decoded)).
  { unfold select_0_1_3. rewrite length_map. congruence. }
  destruct (chunks_concat counts (select_0_1_3 decoded) Hlen) as [Hconcat Hlens].
  exists (snd (attach (chunks (select_0_1_3 decoded) counts) pred_instances w)),
         (chunks (select_0_1_3 decoded) counts).
  assert (Hrun : keypoint_rcnn_inference x pred_instances w
                 = attach (chunks (select_0_1_3 decoded) counts) pred_instances w).
  { unfold keypoint_rcnn_inference, bind, read_tensor, lift, split.
    fold logits boxes decoded counts.
    apply Nat.eqb_eq in Hlen. now rewrite Hlen. }
  split.
  { rewrite Hrun. rewrite (surjective_pairing (attach _ _ _)) at 1.
    now rewrite attach_Ok. }
  split.
  { apply attach_pred_keypoints; [exact Hnd|].
    rewrite <- (length_map (@length _)), Hlens. unfold counts. now rewrite length_map. }
  split; [now rewrite Hconcat|].
  split; [exact Hlens|].
  exact (attach_frame _ pred_instances w).
Qed.

End StageFacts.

Section CounterFacts.

Variable to_heatmap : Keypoints -> Boxes -> nat -> list (list nat) * list (list bool).
Variable heatmaps_to_keypoints : Tensor -> Boxes -> list (list (R * R * R * R)).

Local Abbreviation run_call := (run_call to_heatmap heatmaps_to_keypoints).
Local Abbreviation run := (run to_heatmap heatmaps_to_keypoints).
Local Abbreviation skips := (skips to_heatmap).
Local Abbreviation skipped_batches :=
  (skipped_batches to_heatmap heatmaps_to_keypoints).

(** The inference stage never touches the counter or the event storage. *)
Lemma keypoint_rcnn_inference_counter x pred_instances w :
  let w' := snd (keypoint_rcnn_inference heatmaps_to_keypoints x pred_instances w) in
  _TOTAL_SKIPPED w' = _TOTAL_SKIPPED w /\ event_storage w' = event_storage w.
Proof.
  unfold keypoint_rcnn_inference, bind, read_tensor, lift, split.
  destruct (list_sum _ =? length _)%nat; cbn [snd]; [|split; reflexivity].
  match goal with |- context [attach ?r ?p ?w0] =>
    destruct (attach_frame r p w0) as (Hc & Hs & _) end.
  split; assumption.
Qed.

Lemma run_call_counter (c : Call) (w : World) :
  _TOTAL_SKIPPED (run_call c w)
  = _TOTAL_SKIPPED w + (if skips c w then 1 else 0) /\
  event_storage (run_call c w)
  = ((if skips c w
      then [("kpts_num_skipped_batches", _TOTAL_SKIPPED w + 1)]
      else []) ++ event_storage w)%list.
Proof.
  destruct c as [x instances normalizer | x pred_instances]; cbn [run_call skips].
  - rewrite keypoint_rcnn_loss_world.
    destruct (degenerate to_heatmap w x instances); cbn; split;
      reflexivity || lia.
  - destruct (keypoint_rcnn_inference_counter x pred_instances w) as [-> ->].
    split; [lia|reflexivity].
Qed.

Lemma skip_reports_S (c0 : Z) (n : nat) :
  skip_reports c0 (S n)
  = (skip_reports (c0 + 1) n ++ [("kpts_num_skipped_batches", c0 + 1)])%list.
Proof.
  unfold skip_reports. cbn [seq map rev]. f_equal.
  f_equal. rewrite <- seq_shift, map_map. apply map_ext. intros k.
  f_equal. lia.
Qed.

(** C7.  Every call of the loss that skips its batch adds exactly one to
    the counter and reports the new value under "kpts_num_skipped_batches";
    no other call changes the counter.  Over any run the counter has
    grown by the number of skipped batches, never decreases, and the
    event storage has received the successive values. *)
Theorem skip_counter (calls : list Call) (w : World) :
  let n := skipped_batches calls w in
  (forall c,
      _TOTAL_SKIPPED (run_call c w)
      = _TOTAL_SKIPPED w + (if skips c w then 1 else 0)) /\
  _TOTAL_SKIPPED (run calls w) = _TOTAL_SKIPPED w + Z.of_nat n /\
  _TOTAL_SKIPPED w <= _TOTAL_SKIPPED (run calls w) /\
  event_storage (run calls w)
  = (skip_reports (_TOTAL_SKIPPED w) n ++ event_storage w)%list.
Proof.
  cbv zeta. split; [intros c; apply run_call_counter|].
  revert w. induction calls as [|c rest IH]; intros w.
  - cbn. repeat split; lia.
  - cbn [run skipped_batches].
    destruct (IH (run_call c w)) as (Hc & _ & Hs).
    destruct (run_call_counter c w) as [Hc1 Hs1].
    rewrite Hc, Hs, Hc1, Hs1.
    destruct (skips c w).
    + cbn [Nat.add]. rewrite skip_reports_S, <- app_assoc.
      repeat split; try reflexivity; lia.
    + cbn [Nat.add app]. rewrite Z.add_0_r. repeat split; lia.
Qed.

End CounterFacts.

(** ** The properties at the concrete inputs *)

Lemma Demo_loss_sum :
  keypoint_loss_sum (tensors Demo.world 0%nat)
    (batch_targets Demo.to_heatmap Demo.world 0%nat [0; 1]%nat)
    (nonzero (batch_flags Demo.to_heatmap Demo.world 0%nat [0; 1]%nat))
  = Ok Demo.loss_sum.
Proof. reflexivity. Qed.

Lemma keypoint_loss_masked_sum_witness :
  keypoint_loss_sum Demo.logits [1; 0]%nat (nonzero [true; false])
  = Ok (spec_loss_sum Demo.logits [1; 0]%nat [true; false]) /\
  keypoint_rcnn_loss Demo.to_heatmap 0%nat [0; 1]%nat None Demo.world
  = (Ok (spec_loss_sum Demo.logits [1; 0]%nat [true; false]
         / INR (length (nonzero [true; false])))%R, Demo.world).
Proof.
  apply (keypoint_loss_masked_sum Demo.to_heatmap 0%nat [0; 1]%nat None Demo.world).
  - reflexivity.
  - reflexivity.
  - reflexivity.
  - intros [|[|i]]; cbn; intros H; try discriminate H; [lia | destruct i; discriminate H].
  - left. reflexivity.
Defined.

Lemma forward_training_loss_witness :
  BaseKeypointRCNNHead_forward Demo.to_heatmap Demo.heatmaps_to_keypoints Demo.layers
    (BaseKeypointRCNNHead_init Demo.cfg Demo.input_shape) 0%nat [0; 1]%nat Demo.world
  = (Ok (LossDict
           [("loss_keypoint",
             (Demo.loss_sum / spec_normalizer Demo.cfg 2 1 * LOSS_WEIGHT Demo.cfg)%R)]),
     Demo.world).
Proof.
  apply (proj2 (forward_training_loss Demo.to_heatmap Demo.heatmaps_to_keypoints
                  Demo.layers Demo.cfg Demo.input_shape 0%nat [0; 1]%nat Demo.world
                  0%nat Demo.world Demo.loss_sum eq_refl eq_refl Demo_loss_sum)).
Defined.

Lemma keypoint_rcnn_inference_attaches_witness :
  exists w' results,
    keypoint_rcnn_inference Demo.heatmaps_to_keypoints 0%nat [0; 1; 2]%nat Demo.pred_world
    = (Ok tt, w') /\
    map (fun l => pred_keypoints (objects w' l)) [0; 1; 2]%nat = map Some results /\
    map (@length _) results = [3; 0; 5]%nat.
Proof.
  destruct (keypoint_rcnn_inference_attaches Demo.heatmaps_to_keypoints
              0%nat [0; 1; 2]%nat Demo.pred_world)
    as (w' & results & Hrun & Hattach & _ & Hlen & _).
  - repeat constructor; cbn; intuition discriminate.
  - reflexivity.
  - reflexivity.
  - exists w', results. repeat split; assumption.
Defined.

(** * Further properties of the code *)

(** ** The network *)

Lemma resolve_bound (extra : list string) (name : string) :
  bound extra name = true -> resolve extra name = Ok tt.
Proof. intros H. unfold resolve. now rewrite H. Qed.

Lemma conv_fcn_channels (conv_dims : list Z) (c : Z) :
  map out_channels (fst (conv_fcn c conv_dims)) = conv_dims /\
  map in_channels (fst (conv_fcn c conv_dims)) = removelast (c :: conv_dims) /\
  snd (conv_fcn c conv_dims) = last conv_dims c /\
  Forall (fun b => kernel_size b = 3 /\ stride b = 1 /\ padding b = 1)
         (fst (conv_fcn c conv_dims)).
Proof.
  revert c. induction conv_dims as [|d ds IH]; intros c.
  - cbn. repeat split. constructor.
  - destruct (IH d) as (Ho & Hi & Hl & Hf).
    cbn [conv_fcn]. destruct (conv_fcn d ds) as [bs c'].
    cbn [fst snd map] in *. rewrite Ho, Hi, Hl.
    split; [reflexivity|]. split; [reflexivity|]. split.
    + clear. revert c d. induction ds as [|e ds IHds]; intros c d; [reflexivity|].
      change (last (d :: e :: ds) c) with (last (e :: ds) c).
      now rewrite <- (IHds d e), <- (IHds c e).
    + constructor; [cbn; repeat split | exact Hf].
Qed.

(** X2.  The forward pass of a constructed gate returns the shape of its
    input, for every input shape. *)
Theorem SpatialAttention_forward_keeps_shape (extra : list string) (k : Z)
  (self : SpatialAttention) (x : Shape) :
  SpatialAttention_init extra k = Ok self ->
  SpatialAttention_forward self x = Ok x.
Proof. apply SpatialAttention_forward_shape. Qed.

Lemma SpatialAttention_forward_keeps_shape_witness :
  exists self,
    SpatialAttention_init Demo.patched 3 = Ok self /\
    SpatialAttention_forward self (mkShape 8 256 14 14) = Ok (mkShape 8 256 14 14).
Proof.
  eexists. split; [reflexivity|].
  apply (SpatialAttention_forward_keeps_shape Demo.patched 3). reflexivity.
Defined.

(** X4.  In the module as written, constructing the head raises NameError
    for every configuration and input shape: its constructor calls the
    constructor of the gate, which needs [weight_init]. *)
Theorem head_init_raises (cfg : Cfg) (input_shape : ShapeSpec) :
  KRCNNConvDeconvUpsampleHead_init [] cfg input_shape = Raise (NameError "weight_init").
Proof.
  unfold KRCNNConvDeconvUpsampleHead_init.
  destruct (conv_fcn (channels input_shape) (CONV_DIMS cfg)). reflexivity.
Qed.

(** X5.  Once [weight_init] is bound, constructing the head succeeds for
    every configuration.  The head has one 3x3, stride 1, padding 1 block per
    entry of CONV_DIMS, whose output channels are the entries and whose
    input channels are those of the block before (the input channels for
    the first).  Its deconvolution has kernel 4, stride 2, padding 1, takes
    the output channels of the last block (the input channels when there
    is no block) and gives NUM_KEYPOINTS channels. *)
Theorem head_init_bound (extra : list string) (cfg : Cfg) (input_shape : ShapeSpec) :
  bound extra "weight_init" = true ->
  exists head,
    KRCNNConvDeconvUpsampleHead_init extra cfg input_shape = Ok head /\
    map out_channels (blocks head) = CONV_DIMS cfg /\
    map in_channels (blocks head)
    = removelast (channels input_shape :: CONV_DIMS cfg) /\
    Forall (fun b => kernel_size b = 3 /\ stride b = 1 /\ padding b = 1) (blocks head) /\
    score_lowres head
    = ConvTranspose2d (last (CONV_DIMS cfg) (channels input_shape))
                      (NUM_KEYPOINTS cfg) 4 2 1 /\
    up_scale head = 2.
Proof.
  intros Hb.
  destruct (conv_fcn_channels (CONV_DIMS cfg) (channels input_shape))
    as (Ho & Hi & Hl & Hf).
  unfold KRCNNConvDeconvUpsampleHead_init.
  destruct (conv_fcn (channels input_shape) (CONV_DIMS cfg)) as [bs c].
  cbn [fst snd] in *.
  unfold SpatialAttention_init, SpatialAttention_default_kernel_size.
  rewrite resolve_SpatialAttention, resolve_Conv2d, resolve_nn, (resolve_bound _ _ Hb).
  cbn [rbind Z.eqb Pos.eqb orb negb].
  eexists. split; [reflexivity|]. cbn [blocks score_lowres up_scale].
  rewrite Hl. repeat split; assumption.
Qed.

Lemma head_init_bound_witness :
  exists head,
    KRCNNConvDeconvUpsampleHead_init Demo.patched Demo.cfg Demo.input_shape = Ok head /\
    map out_channels (blocks head) = [512; 512] /\
    map in_channels (blocks head) = [256; 512] /\
    score_lowres head = ConvTranspose2d 512 17 4 2 1.
Proof.
  destruct (head_init_bound Demo.patched Demo.cfg Demo.input_shape eq_refl)
    as (head & H & Ho & Hi & _ & Hs & _).
  exists head. repeat split; assumption.
Defined.

(** X6.  The network of a head refuses an input whose channel count is not
    the one the head was built for: it raises, whatever CONV_DIMS is. *)
Theorem layers_channel_mismatch (extra : list string) (cfg : Cfg)
  (input_shape : ShapeSpec) (head : KRCNNConvDeconvUpsampleHead) (R_ C H W : Z) :
  KRCNNConvDeconvUpsampleHead_init extra cfg input_shape = Ok head ->
  C <> channels input_shape ->
  KRCNNConvDeconvUpsampleHead_layers head (mkShape R_ C H W) = Raise RuntimeError.
Proof.
  intros Hinit Hc.
  destruct (head_init_Ok _ _ _ _ Hinit) as (Hsa & Hb & Hs & _ & _).
  unfold KRCNNConvDeconvUpsampleHead_layers.
  rewrite (SpatialAttention_forward_shape _ _ _ _ Hsa). cbn [rbind].
  rewrite Hb, Hs. apply Z.eqb_neq in Hc.
  destruct (CONV_DIMS cfg) as [|d ds].
  - cbn [conv_fcn fst snd apply_blocks rbind].
    unfold ConvTranspose2d_forward, ConvTranspose2d. cbn [in_channels dimC].
    now rewrite Hc.
  - cbn [conv_fcn]. destruct (conv_fcn d ds) as [bs c'].
    cbn [fst snd apply_blocks]. unfold Conv2d_forward at 1, Conv2d.
    cbn [in_channels dimC]. now rewrite Hc.
Qed.

Lemma layers_channel_mismatch_witness :
  exists head,
    KRCNNConvDeconvUpsampleHead_init Demo.patched Demo.cfg Demo.input_shape = Ok head /\
    KRCNNConvDeconvUpsampleHead_layers head (mkShape 8 3 14 14) = Raise RuntimeError.
Proof.
  eexists. split; [reflexivity|].
  apply (layers_channel_mismatch Demo.patched Demo.cfg Demo.input_shape _ 8 3 14 14).
  - reflexivity.
  - discriminate.
Defined.

(** ** The training loss *)

Section MoreLossFacts.

Variable to_heatmap : Keypoints -> Boxes -> nat -> list (list nat) * list (list bool).

Local Abbreviation encode_images := (encode_images to_heatmap).
Local Abbreviation degenerate := (degenerate to_heatmap).
Local Abbreviation batch_flags := (batch_flags to_heatmap).
Local Abbreviation batch_targets := (batch_targets to_heatmap).
Local Abbreviation keypoint_rcnn_loss := (keypoint_rcnn_loss to_heatmap).

Lemma encode_images_filter objs side instances :
  encode_images objs side
    (filter (fun l => negb (Instances_len (objs l) =? 0)%nat) instances)
  = encode_images objs side instances.
Proof.
  induction instances as [|l rest IH]; [reflexivity|].
  cbn [filter]. destruct (Instances_len (objs l) =? 0)%nat eqn:E; cbn [negb].
  - rewrite IH. cbn [encode_images]. rewrite E.
    now destruct (encode_images objs side rest).
  - cbn [encode_images]. now rewrite IH, E.
Qed.

(** X7.  Images without instances contribute nothing to the loss: leaving
    them out of the batch changes neither what the loss returns nor what it
    does to the counter and the event storage. *)
Theorem keypoint_rcnn_loss_empty_images x instances normalizer w :
  keypoint_rcnn_loss x
    (filter (fun l => negb (Instances_len (objects w l) =? 0)%nat) instances)
    normalizer w
  = keypoint_rcnn_loss x instances normalizer w.
Proof.
  unfold keypoint_rcnn_loss, bind, read_tensor.
  now rewrite encode_images_filter.
Qed.

Lemma index_rows_out_of_range (m : Tensor2) (idx : list nat) :
  Exists (fun i => (rows2 m <= i)%nat) idx ->
  index_rows m idx = Raise IndexError.
Proof.
  induction 1 as [i idx Hi | i idx _ IH]; cbn [index_rows].
  - apply Nat.ltb_ge in Hi. now rewrite Hi.
  - rewrite IH. now destruct (i <? rows2 m)%nat.
Qed.

Lemma flag_set_In (flags : list bool) (i : nat) :
  nth i flags false = true -> (i < length flags)%nat /\ In true flags.
Proof.
  intros H. assert (Hi : (i < length flags)%nat).
  { destruct (Nat.lt_ge_cases i (length flags)) as [Hlt|Hge]; [exact Hlt|].
    rewrite nth_overflow in H by exact Hge. discriminate H. }
  split; [exact Hi|]. rewrite <- H. now apply nth_In.
Qed.

(** X8.  When the batch has a visible keypoint at a position past the
    R*K rows of the logits (more encoded keypoints than the logits have
    rows), the loss raises IndexError and changes nothing: the batch is not
    counted as skipped. *)
Theorem keypoint_rcnn_loss_index_error x instances normalizer w (i : nat) :
  let t := tensors w x in
  nth i (batch_flags w x instances) false = true ->
  (tN t * tK t <= i)%nat ->
  keypoint_rcnn_loss x instances normalizer w = (Raise IndexError, w).
Proof.
  intros t Hflag Hi. destruct (flag_set_In _ _ Hflag) as [Hlen Hin].
  rewrite keypoint_rcnn_loss_paths, (visible_not_degenerate _ _ _ _ Hin).
  cbv zeta. unfold keypoint_loss_sum. rewrite index_rows_out_of_range; [reflexivity|].
  apply Exists_exists. exists i. split.
  - apply nonzero_spec. split; assumption.
  - exact Hi.
Qed.

(** *** The sign of the loss *)

Lemma Rsum_exp_pos (l : list R) : (0 <= Rsum (map exp l))%R.
Proof.
  induction l as [|a l IH]; cbn; [lra|]. pose proof (exp_pos a).
  unfold Rsum in IH. lra.
Qed.

Lemma exp_le_Rsum (l : list R) (bin : nat) :
  (bin < length l)%nat -> (exp (nth bin l 0) <= Rsum (map exp l))%R.
Proof.
  revert bin. induction l as [|a l IH]; intros bin Hb; [cbn in Hb; lia|].
  destruct bin as [|b]; cbn [nth map Rsum fold_right].
  - pose proof (Rsum_exp_pos l). unfold Rsum in *. lra.
  - cbn in Hb. pose proof (IH b ltac:(lia)). pose proof (exp_pos a).
    unfold Rsum in *. lra.
Qed.

Lemma xent_nonneg (logits : list R) (bin : nat) :
  (bin < length logits)%nat -> (0 <= xent logits bin)%R.
Proof.
  intros Hb. unfold xent. pose proof (exp_le_Rsum logits bin Hb) as Hle.
  pose proof (exp_pos (nth bin logits 0%R)) as Hpos.
  destruct Hle as [Hlt | Heq].
  - pose proof (ln_increasing _ _ Hpos Hlt) as H. rewrite ln_exp in H. lra.
  - rewrite <- Heq, ln_exp. lra.
Qed.

Lemma Rsum_nonneg {A : Type} (f : A -> R) (l : list A) :
  Forall (fun a => 0 <= f a)%R l -> (0 <= Rsum (map f l))%R.
Proof.
  induction 1 as [|a l Ha _ IH]; cbn; [lra|]. unfold Rsum in IH. lra.
Qed.

Lemma keypoint_loss_sum_Ok (t : Tensor) (targets : list nat) (idx : list nat) :
  length (tdata t) = (tN t * tK t * (tH t * tW t))%nat ->
  Forall (fun i => (i < tN t * tK t)%nat /\ (i < length targets)%nat /\
                   (nth i targets 0 < tH t * tW t)%nat) idx ->
  keypoint_loss_sum t targets idx
  = Ok (Rsum (map (fun i => xent (row2 (view2 t (tN t * tK t) (tH t * tW t)) i)
                                 (nth i targets 0%nat)) idx)) /\
  (0 <= Rsum (map (fun i => xent (row2 (view2 t (tN t * tK t) (tH t * tW t)) i)
                                 (nth i targets 0%nat)) idx))%R.
Proof.
  intros Hdata Hidx. rewrite Forall_forall in Hidx.
  assert (Hrow : forall i, In i idx ->
            (nth i targets 0 < length (row2 (view2 t (tN t * tK t) (tH t * tW t)) i))%nat).
  { intros i Hi. rewrite row2_length; [apply Hidx, Hi | exact Hdata | apply Hidx, Hi]. }
  split.
  - unfold keypoint_loss_sum.
    rewrite index_rows_map by (apply Forall_forall; intros i Hi; apply Hidx, Hi).
    cbn [rbind].
    rewrite index_flat_map by (apply Forall_forall; intros i Hi; apply Hidx, Hi).
    cbn [rbind]. apply cross_entropy_sum_map.
    apply Forall_forall. exact Hrow.
  - apply Rsum_nonneg. apply Forall_forall. intros i Hi.
    apply xent_nonneg, Hrow, Hi.
Qed.

(** X9.  On a batch with a visible keypoint whose encoded keypoints
    correspond one to one to the rows of the logits, the loss is returned
    and is not negative, when it is normalized by the number of visible
    keypoints or by a positive normalizer. *)
Theorem keypoint_rcnn_loss_nonneg x instances normalizer w :
  let t := tensors w x in
  let flags := batch_flags w x instances in
  let targets := batch_targets w x instances in
  length (tdata t) = (tN t * tK t * (tH t * tW t))%nat ->
  length flags = (tN t * tK t)%nat ->
  length targets = (tN t * tK t)%nat ->
  (forall i, nth i flags false = true -> (nth i targets 0 < tH t * tW t)%nat) ->
  In true flags ->
  match normalizer with Some n => (0 < n)%R | None => True end ->
  exists loss,
    keypoint_rcnn_loss x instances normalizer w = (Ok loss, w) /\ (0 <= loss)%R.
Proof.
  intros t flags targets Hdata Hflags Htargets Hbins Hvis Hnorm.
  destruct (keypoint_loss_sum_Ok t targets (nonzero flags) Hdata) as [Hsum Hpos].
  { apply Forall_forall. intros i Hi. apply nonzero_spec in Hi.
    repeat split; try lia. apply Hbins. tauto. }
  rewrite keypoint_rcnn_loss_paths, (visible_not_degenerate _ _ _ _ Hvis).
  cbv zeta. fold t flags targets. rewrite Hsum.
  eexists. split; [reflexivity|].
  assert (Hvalid : (0 < INR (length (nonzero flags)))%R).
  { apply lt_0_INR. destruct (In_nth _ _ false Hvis) as (i & Hi & Hn).
    assert (Hin : In i (nonzero flags)) by (apply nonzero_spec; tauto).
    destruct (nonzero flags); [contradiction|cbn; lia]. }
  apply Rmult_le_pos; [exact Hpos|].
  apply Rlt_le, Rinv_0_lt_compat. destruct normalizer; assumption.
Qed.

Lemma index_rows_ext (m m' : Tensor2) (idx : list nat) :
  rows2 m = rows2 m' ->
  (forall i, In i idx -> row2 m i = row2 m' i) ->
  index_rows m idx = index_rows m' idx.
Proof.
  intros Hrows Hext. induction idx as [|i idx IH]; [reflexivity|].
  cbn [index_rows]. rewrite <- Hrows.
  rewrite IH by (intros j Hj; apply Hext; now right).
  rewrite (Hext i) by now left. reflexivity.
Qed.

(** X10.  On a batch with a visible keypoint, the logits of the keypoints
    that are not visible do not enter the loss: two logits tensors of the
    same shape that agree on the rows of the (R*K, S*S) reshape whose flag
    is set give the same result and the same world. *)
Theorem keypoint_rcnn_loss_visible_rows_only x x' instances normalizer w :
  let t := tensors w x in
  let t' := tensors w x' in
  In true (batch_flags w x instances) ->
  (tN t, tK t, tH t, tW t) = (tN t', tK t', tH t', tW t') ->
  (forall i, nth i (batch_flags w x instances) false = true ->
             row2 (view2 t (tN t * tK t) (tH t * tW t)) i
             = row2 (view2 t' (tN t' * tK t') (tH t' * tW t')) i) ->
  keypoint_rcnn_loss x instances normalizer w
  = keypoint_rcnn_loss x' instances normalizer w.
Proof.
  intros t t' Hvis Hshape Hrows. injection Hshape as HN HK HH HW.
  assert (Hflags : batch_flags w x' instances = batch_flags w x instances).
  { unfold batch_flags. fold t t'. now rewrite HH. }
  assert (Htargets : batch_targets w x' instances = batch_targets w x instances).
  { unfold batch_targets. fold t t'. now rewrite HH. }
  assert (Hvis' : In true (batch_flags w x' instances)) by now rewrite Hflags.
  rewrite !keypoint_rcnn_loss_paths.
  rewrite (visible_not_degenerate _ _ _ _ Hvis), (visible_not_degenerate _ _ _ _ Hvis').
  rewrite Hflags, Htargets. cbv zeta. fold t t'.
  replace (keypoint_loss_sum t' (batch_targets w x instances)
             (nonzero (batch_flags w x instances)))
    with (keypoint_loss_sum t (batch_targets w x instances)
            (nonzero (batch_flags w x instances))); [reflexivity|].
  unfold keypoint_loss_sum.
  rewrite (index_rows_ext (view2 t (tN t * tK t) (tH t * tW t))
                          (view2 t' (tN t' * tK t') (tH t' * tW t'))).
  - reflexivity.
  - cbn. now rewrite HN, HK.
  - intros i Hi. apply Hrows. apply nonzero_spec in Hi. tauto.
Qed.

End MoreLossFacts.


(** ** The inference stage and the controller *)

Section MoreStageFacts.

Variable to_heatmap : Keypoints -> Boxes -> nat -> list (list nat) * list (list bool).
Variable heatmaps_to_keypoints : Tensor -> Boxes -> list (list (R * R * R * R)).

Local Abbreviation degenerate := (degenerate to_heatmap).
Local Abbreviation keypoint_rcnn_loss := (keypoint_rcnn_loss to_heatmap).
Local Abbreviation keypoint_rcnn_inference :=
  (keypoint_rcnn_inference heatmaps_to_keypoints).
Local Abbreviation decoded_rows := (decoded_rows heatmaps_to_keypoints).
Local Abbreviation forward :=
  (BaseKeypointRCNNHead_forward to_heatmap heatmaps_to_keypoints).

(** The two outcomes of the inference stage. *)
Lemma keypoint_rcnn_inference_paths x pred_instances w :
  keypoint_rcnn_inference x pred_instances w
  = if (list_sum (instance_counts w pred_instances)
        =? length (decoded_rows w x pred_instances))%nat
    then attach (chunks (decoded_rows w x pred_instances)
                        (instance_counts w pred_instances)) pred_instances w
    else (Raise RuntimeError, w).
Proof.
  unfold keypoint_rcnn_inference, bind, read_tensor, lift, split.
  fold (instance_counts w pred_instances). fold (decoded_rows w x pred_instances).
  destruct (list_sum _ =? length _)%nat; reflexivity.
Qed.

Lemma attach_result results pred_instances w :
  attach results pred_instances w = (Ok tt, snd (attach results pred_instances w)).
Proof.
  rewrite (surjective_pairing (attach results pred_instances w)) at 1.
  now rewrite attach_Ok.
Qed.

Lemma chunks_length {A : Type} (l : list A) (sizes : list nat) :
  length (chunks l sizes) = length sizes.
Proof.
  revert l. induction sizes as [|n sizes IH]; intros l; [reflexivity|].
  cbn. now rewrite IH.
Qed.

(** What the loop leaves on every collection. *)
Lemma attach_objects results pred_instances w l :
  objects (snd (attach results pred_instances w)) l
  = match last_assigned results pred_instances l with
    | Some r => with_pred_keypoints (objects w l) r
    | None => objects w l
    end.
Proof.
  revert results w.
  induction pred_instances as [|l0 rest IH]; intros [|r results] w; try reflexivity.
  cbn [attach last_assigned]. unfold bind. cbn [set_pred_keypoints].
  rewrite IH. cbn [objects]. unfold update.
  destruct (last_assigned results rest l) as [r'|];
    destruct (Nat.eqb_spec l l0) as [->|_]; reflexivity.
Qed.

Lemma last_assigned_None results pred_instances l :
  ~ In l pred_instances -> last_assigned results pred_instances l = None.
Proof.
  revert results.
  induction pred_instances as [|l0 rest IH]; intros [|r results] Hl; try reflexivity.
  cbn [last_assigned]. rewrite IH by (intros H; apply Hl; now right).
  destruct (Nat.eqb_spec l l0) as [->|_]; [|reflexivity].
  exfalso. apply Hl. now left.
Qed.

Lemma last_assigned_In results pred_instances l :
  length results = length pred_instances ->
  In l pred_instances ->
  exists r, last_assigned results pred_instances l = Some r.
Proof.
  revert results.
  induction pred_instances as [|l0 rest IH]; intros [|r results] Hlen Hin;
    try discriminate; [contradiction|].
  cbn [last_assigned].
  destruct (last_assigned results rest l) as [r'|] eqn:E; [now exists r'|].
  destruct (Nat.eqb_spec l l0) as [->|Hne]; [now exists r|].
  destruct Hin as [->|Hin]; [contradiction|].
  destruct (IH results) as [r' Hr']; [now injection Hlen | exact Hin |].
  congruence.
Qed.

Lemma last_assigned_last results pred_instances (i : nat) (l : loc) :
  length results = length pred_instances ->
  nth_error pred_instances i = Some l ->
  (forall j, (i < j)%nat -> nth_error pred_instances j <> Some l) ->
  last_assigned results pred_instances l = Some (nth i results []).
Proof.
  revert results i.
  induction pred_instances as [|l0 rest IH]; intros [|r results] i Hlen Hi Hlast;
    try discriminate; [destruct i; discriminate Hi|].
  cbn [last_assigned]. destruct i as [|i].
  - injection Hi as ->. rewrite last_assigned_None.
    + now rewrite Nat.eqb_refl.
    + intros Hin. destruct (In_nth_error _ _ Hin) as [j Hj].
      apply (Hlast (S j)); [lia | exact Hj].
  - rewrite (IH results i); [reflexivity | now injection Hlen | exact Hi |].
    intros j Hj. apply (Hlast (S j)). lia.
Qed.

(** The stage reads only what it leaves unchanged. *)
Lemma attach_keeps_inputs results ps w x pred_instances :
  let w' := snd (attach results ps w) in
  instance_counts w' pred_instances = instance_counts w pred_instances /\
  decoded_rows w' x pred_instances = decoded_rows w x pred_instances.
Proof.
  destruct (attach_frame results ps w) as (_ & _ & Ht & _ & Hf). cbv zeta.
  unfold instance_counts, decoded_rows.
  split.
  - apply map_ext. intros l. apply Hf.
  - rewrite Ht. do 3 f_equal. apply map_ext. intros l. apply Hf.
Qed.

(** X11.  When the instance counts of the collections do not add up to
    the number of rows the decoder returns, the inference stage raises
    before it attaches anything: no collection is changed. *)
Theorem keypoint_rcnn_inference_mismatch x pred_instances w :
  list_sum (instance_counts w pred_instances)
  <> length (decoded_rows w x pred_instances) ->
  keypoint_rcnn_inference x pred_instances w = (Raise RuntimeError, w).
Proof.
  intros H. rewrite keypoint_rcnn_inference_paths.
  apply Nat.eqb_neq in H. now rewrite H.
Qed.

(** X12.  Running the inference stage a second time on the same logits and
    collections changes nothing: it returns what the first run returned
    and leaves every collection, the tensors, the counter and the event
    storage as the first run left them. *)
Theorem keypoint_rcnn_inference_idempotent x pred_instances w :
  let w1 := snd (keypoint_rcnn_inference x pred_instances w) in
  let w2 := snd (keypoint_rcnn_inference x pred_instances w1) in
  fst (keypoint_rcnn_inference x pred_instances w1)
  = fst (keypoint_rcnn_inference x pred_instances w) /\
  (forall l, objects w2 l = objects w1 l) /\
  tensors w2 = tensors w1 /\
  _TOTAL_SKIPPED w2 = _TOTAL_SKIPPED w1 /\
  event_storage w2 = event_storage w1.
Proof.
  cbv zeta. rewrite (keypoint_rcnn_inference_paths x pred_instances w).
  destruct (list_sum (instance_counts w pred_instances)
            =? length (decoded_rows w x pred_instances))%nat eqn:E.
  - set (results := chunks (decoded_rows w x pred_instances)
                           (instance_counts w pred_instances)).
    set (w1 := snd (attach results pred_instances w)).
    destruct (attach_keeps_inputs results pred_instances w x pred_instances)
      as [Hcounts Hrows].
    fold w1 in Hcounts, Hrows.
    rewrite keypoint_rcnn_inference_paths, Hcounts, Hrows, E. fold results.
    rewrite !attach_Ok. split; [reflexivity|].
    destruct (attach_frame results pred_instances w1) as (Hc & Hs & Ht & _ & _).
    split; [|repeat split; assumption].
    intros l. rewrite attach_objects. unfold w1. rewrite attach_objects.
    destruct (last_assigned results pred_instances l); reflexivity.
  - cbn [snd fst]. rewrite keypoint_rcnn_inference_paths, E. repeat split.
Qed.

(** X13.  When a collection is named more than once in the list, the
    inference stage leaves on it the chunk of its last occurrence: each
    assignment of the loop replaces the one before. *)
Theorem keypoint_rcnn_inference_last_occurrence x pred_instances w (i : nat) (l : loc) :
  list_sum (instance_counts w pred_instances)
  = length (decoded_rows w x pred_instances) ->
  nth_error pred_instances i = Some l ->
  (forall j, (i < j)%nat -> nth_error pred_instances j <> Some l) ->
  pred_keypoints (objects (snd (keypoint_rcnn_inference x pred_instances w)) l)
  = Some (nth i (chunks (decoded_rows w x pred_instances)
                        (instance_counts w pred_instances)) []).
Proof.
  intros Hsum Hi Hlast. rewrite keypoint_rcnn_inference_paths.
  apply Nat.eqb_eq in Hsum. rewrite Hsum, attach_objects.
  rewrite (last_assigned_last _ _ i l); [reflexivity | | exact Hi | exact Hlast].
  rewrite chunks_length. unfold instance_counts. apply length_map.
Qed.

(** X14.  When the [layers] method raises, the controller raises the same
    exception and runs neither stage; with the [layers] of the base class
    this is NotImplementedError, in training and in inference mode. *)
Theorem forward_layers_raises (self : BaseKeypointRCNNHead) (x : loc)
  (instances : list loc) (w : World) :
  (forall layers e w1,
      layers x w = (Raise e, w1) ->
      forward layers self x instances w = (Raise e, w1)) /\
  forward BaseKeypointRCNNHead_layers self x instances w
  = (Raise NotImplementedError, w).
Proof.
  split.
  - intros layers e w1 H. unfold BaseKeypointRCNNHead_forward, bind. now rewrite H.
  - reflexivity.
Qed.

(** X15.  In inference mode, when the instance counts add up to the rows
    of the decoder, the controller returns the very list of collections it
    was given, each of them now with [pred_keypoints] attached, and leaves
    the counter and the event storage as the [layers] method left them. *)
Theorem forward_inference (layers : loc -> M loc) (cfg : Cfg)
  (input_shape : ShapeSpec) (x : loc) (pred_instances : list loc) (w : World)
  (x' : loc) (w1 : World) :
  let self := set_training false (BaseKeypointRCNNHead_init cfg input_shape) in
  layers x w = (Ok x', w1) ->
  list_sum (instance_counts w1 pred_instances)
  = length (decoded_rows w1 x' pred_instances) ->
  exists w',
    forward layers self x pred_instances w = (Ok (PredictedInstances pred_instances), w') /\
    Forall (fun l => exists r, pred_keypoints (objects w' l) = Some r) pred_instances /\
    _TOTAL_SKIPPED w' = _TOTAL_SKIPPED w1 /\
    event_storage w' = event_storage w1.
Proof.
  intros self Hlayers Hsum.
  set (results := chunks (decoded_rows w1 x' pred_instances)
                         (instance_counts w1 pred_instances)).
  exists (snd (attach results pred_instances w1)).
  assert (Hrun : keypoint_rcnn_inference x' pred_instances w1
                 = (Ok tt, snd (attach results pred_instances w1))).
  { rewrite keypoint_rcnn_inference_paths. apply Nat.eqb_eq in Hsum.
    rewrite Hsum. apply attach_result. }
  split.
  { unfold BaseKeypointRCNNHead_forward, bind. rewrite Hlayers.
    cbn [training self set_training]. now rewrite Hrun. }
  split.
  { apply Forall_forall. intros l Hl. rewrite attach_objects.
    destruct (last_assigned_In results pred_instances l) as [r Hr];
      [|exact Hl|].
    - unfold results. rewrite chunks_length. unfold instance_counts. apply length_map.
    - rewrite Hr. now exists r. }
  destruct (attach_frame results pred_instances w1) as (Hc & Hs & _).
  split; assumption.
Qed.

(** X16.  In training mode, on a batch that is skipped, the controller does
    not raise, whatever the loss weight and the normalization mode are: it
    returns a dict with the one key "loss_keypoint", holding what the loss
    returned times the loss weight, and the batch is counted and reported
    once.  The normalizer is not used: an empty list of images makes it 0
    in the fixed mode, and nothing is divided by it. *)
Theorem forward_training_skipped (layers : loc -> M loc) (cfg : Cfg)
  (input_shape : ShapeSpec) (x : loc) (instances : list loc) (w : World)
  (x' : loc) (w1 : World) :
  let self := BaseKeypointRCNNHead_init cfg input_shape in
  layers x w = (Ok x', w1) ->
  degenerate w1 x' instances = true ->
  exists loss,
    keypoint_rcnn_loss x' instances None w1 = (Ok loss, skipped_world w1) /\
    forward layers self x instances w
    = (Ok (LossDict [("loss_keypoint", (loss * LOSS_WEIGHT cfg)%R)]), skipped_world w1).
Proof.
  intros self Hlayers Hd.
  unfold BaseKeypointRCNNHead_forward, bind. rewrite Hlayers.
  cbn [training self BaseKeypointRCNNHead_init].
  rewrite !keypoint_rcnn_loss_paths, Hd. unfold ret.
  eexists. split; reflexivity.
Qed.

End MoreStageFacts.

(** ** The further properties at the concrete inputs *)

Lemma keypoint_rcnn_loss_index_error_witness :
  keypoint_rcnn_loss Demo.to_heatmap 0%nat [0; 0]%nat None Demo.world
  = (Raise IndexError, Demo.world).
Proof.
  apply (keypoint_rcnn_loss_index_error Demo.to_heatmap 0%nat [0; 0]%nat None
           Demo.world 2).
  - reflexivity.
  - cbn. lia.
Defined.

Lemma keypoint_rcnn_loss_nonneg_witness :
  exists loss,
    keypoint_rcnn_loss Demo.to_heatmap 0%nat [0; 1]%nat None Demo.world
    = (Ok loss, Demo.world) /\ (0 <= loss)%R.
Proof.
  apply (keypoint_rcnn_loss_nonneg Demo.to_heatmap 0%nat [0; 1]%nat None Demo.world).
  - reflexivity.
  - reflexivity.
  - reflexivity.
  - intros [|[|i]]; cbn; intros H; try discriminate H; [lia | destruct i; discriminate H].
  - left. reflexivity.
  - exact I.
Defined.

Lemma keypoint_rcnn_loss_visible_rows_only_witness :
  keypoint_rcnn_loss Demo.to_heatmap 0%nat [0; 1]%nat None Cases.world
  = keypoint_rcnn_loss Demo.to_heatmap 1%nat [0; 1]%nat None Cases.world.
Proof.
  apply (keypoint_rcnn_loss_visible_rows_only Demo.to_heatmap 0%nat 1%nat
           [0; 1]%nat None Cases.world).
  - left. reflexivity.
  - reflexivity.
  - intros [|[|i]]; cbn; intros H; try discriminate H;
      [reflexivity | destruct i; discriminate H].
Defined.

Lemma keypoint_rcnn_inference_mismatch_witness :
  keypoint_rcnn_inference Demo.heatmaps_to_keypoints 0%nat [0; 1]%nat Demo.pred_world
  = (Raise RuntimeError, Demo.pred_world).
Proof.
  apply (keypoint_rcnn_inference_mismatch Demo.heatmaps_to_keypoints 0%nat
           [0; 1]%nat Demo.pred_world).
  cbn. lia.
Defined.

Lemma keypoint_rcnn_inference_last_occurrence_witness :
  pred_keypoints
    (objects (snd (keypoint_rcnn_inference Demo.heatmaps_to_keypoints 0%nat
                     [0; 1; 0]%nat Cases.alias_world)) 0%nat)
  = Some (nth 2 (chunks (decoded_rows Demo.heatmaps_to_keypoints Cases.alias_world
                           0%nat [0; 1; 0]%nat)
                        [3; 0; 3]%nat) []).
Proof.
  apply (keypoint_rcnn_inference_last_occurrence Demo.heatmaps_to_keypoints 0%nat
           [0; 1; 0]%nat Cases.alias_world 2 0%nat).
  - reflexivity.
  - reflexivity.
  - intros [|[|[|j]]] Hj; try lia. destruct j; discriminate.
Defined.

Lemma forward_layers_raises_witness :
  BaseKeypointRCNNHead_forward Demo.to_heatmap Demo.heatmaps_to_keypoints
    BaseKeypointRCNNHead_layers
    (BaseKeypointRCNNHead_init Demo.cfg Demo.input_shape) 0%nat [0; 1]%nat Demo.world
  = (Raise NotImplementedError, Demo.world).
Proof.
  apply (proj1 (forward_layers_raises Demo.to_heatmap Demo.heatmaps_to_keypoints
                  (BaseKeypointRCNNHead_init Demo.cfg Demo.input_shape)
                  0%nat [0; 1]%nat Demo.world)
               BaseKeypointRCNNHead_layers NotImplementedError Demo.world).
  reflexivity.
Defined.

Lemma forward_inference_witness :
  exists w',
    BaseKeypointRCNNHead_forward Demo.to_heatmap Demo.heatmaps_to_keypoints Demo.layers
      (set_training false (BaseKeypointRCNNHead_init Demo.cfg Demo.input_shape))
      0%nat [0; 1; 2]%nat Demo.pred_world
    = (Ok (PredictedInstances [0; 1; 2]%nat), w') /\
    Forall (fun l => exists r, pred_keypoints (objects w' l) = Some r) [0; 1; 2]%nat.
Proof.
  destruct (forward_inference Demo.to_heatmap Demo.heatmaps_to_keypoints Demo.layers
              Demo.cfg Demo.input_shape 0%nat [0; 1; 2]%nat Demo.pred_world
              0%nat Demo.pred_world eq_refl eq_refl)
    as (w' & Hrun & Hall & _).
  exists w'. split; assumption.
Defined.

Lemma forward_training_skipped_witness :
  exists loss,
    keypoint_rcnn_loss Demo.to_heatmap_blind 0%nat [] None Demo.world
    = (Ok loss, skipped_world Demo.world) /\
    BaseKeypointRCNNHead_forward Demo.to_heatmap_blind Demo.heatmaps_to_keypoints
      Demo.layers (BaseKeypointRCNNHead_init Demo.cfg Demo.input_shape)
      0%nat [] Demo.world
    = (Ok (LossDict [("loss_keypoint", (loss * LOSS_WEIGHT Demo.cfg)%R)]),
       skipped_world Demo.world).
Proof.
  apply (forward_training_skipped Demo.to_heatmap_blind Demo.heatmaps_to_keypoints
           Demo.layers Demo.cfg Demo.input_shape 0%nat [] Demo.world
           0%nat Demo.world).
  - reflexivity.
  - reflexivity.
Defined.

(** ** The loss on a skipped batch, in float32 *)

Section Float32Facts.

Variable to_heatmap : Keypoints -> Boxes -> nat -> list (list nat) * list (list bool).
Variable cross_entropy32 : list (list float32) -> list nat -> result float32.

Local Abbreviation keypoint_rcnn_loss32 :=
  (keypoint_rcnn_loss32 to_heatmap cross_entropy32).
Local Abbreviation degenerate32 := (degenerate32 to_heatmap).

(** A float times +0: a zero of its sign when it is finite, nan when it is
    an infinity or nan. *)
Lemma f32_mul_zero (s : float32) :
  f32_mul s (S754_zero false)
  = match s with
    | S754_zero b | S754_finite b _ _ => S754_zero b
    | S754_infinity _ | S754_nan => S754_nan
    end.
Proof. destruct s as [[|]|[|]| |[|] m e]; reflexivity. Qed.

(** The skipping path of the loss on float32 logits. *)
Lemma keypoint_rcnn_loss32_skips tensors32 x instances normalizer w :
  degenerate32 w (tensors32 x) instances = true ->
  keypoint_rcnn_loss32 tensors32 x instances normalizer w
  = (Ok (mul32 (sum32 x (tensors32 x)) (f32_of_Z 0)), skipped_world w).
Proof.
  unfold degenerate32, keypoint_rcnn_loss32.
  rewrite <- (encode_images_no_heatmaps to_heatmap (objects w) (tH32 (tensors32 x))).
  unfold nonzero. rewrite <- nonzero_from_none with (i := 0%nat).
  destruct (encode_images to_heatmap (objects w) (tH32 (tensors32 x)) instances)
    as [hs vs].
  cbn [fst snd]. intros ->. reflexivity.
Qed.

(** C1, amended.  On a batch in which every per-image instance list is
    empty, or in which no validity flag is set, the loss does not raise: it
    returns the sum of the logits times 0, a value whose graph still reaches
    the logits.  That value is zero when the sum of the logits is finite,
    and nan when the sum is an infinity or nan. *)
Theorem keypoint_rcnn_loss32_skipped (tensors32 : loc -> Tensor32) (x : loc)
  (instances : list loc) (normalizer : option float32) (w : World) :
  degenerate32 w (tensors32 x) instances = true ->
  let s := sum32 x (tensors32 x) in
  let loss := mul32 s (f32_of_Z 0) in
  keypoint_rcnn_loss32 tensors32 x instances normalizer w
  = (Ok loss, skipped_world w) /\
  graph loss = [x] /\
  (if f32_is_finite (value s)
   then f32_is_zero (value loss) = true
   else value loss = S754_nan).
Proof.
  intros Hd s loss. split; [|split].
  - apply keypoint_rcnn_loss32_skips, Hd.
  - reflexivity.
  - unfold loss, mul32. cbn [value]. change (f32_of_Z 0) with (S754_zero false).
    rewrite f32_mul_zero. destruct (value s); reflexivity.
Qed.

End Float32Facts.

(** C1, as the claim has it: on a batch with no instance and finite logits
    whose sum is past the largest float32, the loss is not zero: the sum is
    an infinity and the loss returned is nan. *)
Lemma keypoint_rcnn_loss32_overflow :
  degenerate32 Demo.to_heatmap Demo.world Cases32.large_logits [1]%nat = true /\
  forallb f32_is_finite (tdata32 Cases32.large_logits) = true /\
  value (sum32 0%nat Cases32.large_logits) = S754_infinity false /\
  keypoint_rcnn_loss32 Demo.to_heatmap Cases32.cross_entropy32
    (fun _ => Cases32.large_logits) 0%nat [1]%nat None Demo.world
  = (Ok (mkScalar32 S754_nan [0%nat]), skipped_world Demo.world) /\
  f32_is_zero S754_nan = false.
Proof. repeat split. Qed.

Lemma keypoint_rcnn_loss32_skipped_witness :
  keypoint_rcnn_loss32 Demo.to_heatmap_blind Cases32.cross_entropy32
    (fun _ => Cases32.small_logits) 0%nat [0; 1; 2]%nat None Demo.world
  = (Ok (mkScalar32 (S754_zero false) [0%nat]), skipped_world Demo.world) /\
  graph (mkScalar32 (S754_zero false) [0%nat]) = [0%nat] /\
  f32_is_zero (S754_zero false) = true.
Proof.
  exact (keypoint_rcnn_loss32_skipped Demo.to_heatmap_blind Cases32.cross_entropy32
           (fun _ => Cases32.small_logits) 0%nat [0; 1; 2]%nat None Demo.world
           eq_refl).
Defined.
